(** * sw5e: advancement validation, advancement flow, character sheet handlers

    A shallow embedding of the JavaScript sources of the sw5e system module:

    - [ItemChoiceAdvancement] ([levels], [configuredForLevel],
      [_validateItemType]),
    - [ItemGrantConfig._validateDroppedItem],
    - [AdvancementFlow._updateObject],
    - [ActorSheet5eCharacter._onLevelChange] and [_onDropSingleItem],
    - [utils.simplifyBonus].

    JavaScript values are modelled as the code uses them: a property that may
    be [undefined] is an [option], an object used as a dictionary is a finite
    map or (where the enumeration order of the keys matters) an association
    list in creation order, a thrown exception is the [Throw] case of
    [Outcome], and the effects of the sheet handlers are written in a small
    state-and-exception monad over the actor and a log of the calls made to
    the host application. *)

From Stdlib Require Import ZArith Lia Ascii String.
From stdpp Require Import base option gmap strings list sorting pretty.

Open Scope string_scope.
Open Scope list_scope.
Open Scope Z_scope.

(* ===================================================================== *)
(** ** Exceptions and results *)
(* ===================================================================== *)

(** A label inserted into a localised message.  The localisation tables
    belong to the host, so a label is kept symbolically. *)
Inductive Label :=
| Localized (key : option string)  (* game.i18n.localize(key) *)
| Plain (text : option string).    (* a configured label, used as it is *)

(** [game.i18n.format(key, data)]: the message key and the substitutions. *)
Record Message := { msg_key : string; msg_data : list (string * Label) }.

Inductive JsError :=
| Error (m : Message)        (* throw new Error(game.i18n.format(...)) *)
| TypeError (what : string)  (* property read on undefined *)
| Rejected                   (* a promise rejected with null *)
| HostError (what : string). (* an exception raised inside the host *)

Inductive Outcome (A : Type) :=
| Return (a : A)
| Throw (e : JsError).
Arguments Return {A} a.
Arguments Throw {A} e.

Definition obind {A B} (m : Outcome A) (k : A -> Outcome B) : Outcome B :=
  match m with
  | Return a => k a
  | Throw e => Throw e
  end.

(** [try { body } catch(error) { handler }] *)
Definition try_catch {A} (body : Outcome A) (handler : JsError -> Outcome A)
  : Outcome A :=
  match body with
  | Return a => Return a
  | Throw e => handler e
  end.

Definition returns {A} (m : Outcome A) : Prop := exists a, m = Return a.
Definition throws {A} (m : Outcome A) : Prop := exists e, m = Throw e.

#[global] Instance Label_eq_dec : EqDecision Label.
Proof. solve_decision. Defined.
#[global] Instance Message_eq_dec : EqDecision Message.
Proof. solve_decision. Defined.
#[global] Instance JsError_eq_dec : EqDecision JsError.
Proof. solve_decision. Defined.

(* ===================================================================== *)
(** ** JavaScript primitives used by the sources *)
(* ===================================================================== *)

Module JS.

(** Truthiness of a string-or-undefined value: [undefined] and the empty
    string are falsy. *)
Definition truthy (s : option string) : bool :=
  match s with
  | Some s => negb (bool_decide (s = ""))
  | None => false
  end.

(** [x ?? y] *)
Definition nullish_or {A} (x y : option A) : option A :=
  match x with
  | Some _ => x
  | None => y
  end.

(** The property key a string-or-undefined value is coerced to in [obj[v]]. *)
Definition to_key (s : option string) : string :=
  match s with
  | Some s => s
  | None => "undefined"
  end.

(** The property key an object is coerced to in [obj[o]]. *)
Definition object_key : string := "[object Object]".

(** *** [parseInt(string)] with no radix

    Leading white space is skipped, one sign is read, a [0x] or [0X] prefix
    selects radix 16, and the longest run of digits is converted; [None] is
    [NaN].  Strings are sequences of bytes: only the ASCII white space
    characters are skipped.  The result is the exact integer (the rounding of
    integers beyond 2^53 to a double is not modelled). *)

Definition is_space (c : ascii) : bool :=
  let n := N_of_ascii c in
  (((9 <=? n) && (n <=? 13)) || (n =? 32))%N.

Fixpoint skip_spaces (s : string) : string :=
  match s with
  | String c s' => if is_space c then skip_spaces s' else s
  | EmptyString => s
  end.

Definition digit_value (radix : Z) (c : ascii) : option Z :=
  let n := Z.of_N (N_of_ascii c) in
  let d := if (48 <=? n) && (n <=? 57) then Some (n - 48)
           else if (97 <=? n) && (n <=? 122) then Some (n - 87)
           else if (65 <=? n) && (n <=? 90) then Some (n - 55)
           else None in
  match d with
  | Some v => if v <? radix then Some v else None
  | None => None
  end.

Fixpoint parse_digits (radix : Z) (s : string) (acc : option Z) : option Z :=
  match s with
  | String c s' =>
      match digit_value radix c with
      | Some d => parse_digits radix s' (Some (radix * default 0 acc + d))
      | None => acc
      end
  | EmptyString => acc
  end.

Definition parseInt (v : option string) : option Z :=
  let s := skip_spaces (to_key v) in
  let '(sign, s) :=
    match s with
    | String "-" s' => (-1, s')
    | String "+" s' => (1, s')
    | _ => (1, s)
    end in
  let '(radix, s) :=
    match s with
    | String "0" (String "x" s') => (16, s')
    | String "0" (String "X" s') => (16, s')
    | _ => (10, s)
    end in
  (fun n => sign * n) <$> parse_digits radix s None.

(** [String.prototype.capitalize] of the host:
    [this.charAt(0).toUpperCase() + this.slice(1)] (ASCII letters). *)
Definition upper (c : ascii) : ascii :=
  let n := N_of_ascii c in
  if ((97 <=? n) && (n <=? 122))%N then ascii_of_N (n - 32) else c.

Definition capitalize (s : string) : string :=
  match s with
  | String c s' => String (upper c) s'
  | EmptyString => EmptyString
  end.

(** *** Objects whose keys are enumerated

    An object is the list of its own properties in creation order; its keys
    are pairwise distinct.  [Object.keys] lists the keys that are array
    indices (the canonical decimal form of an integer below 2^32 - 1) in
    ascending numeric order, then the other keys in creation order. *)

Definition JsObject (A : Type) : Type := list (string * A).

Definition well_formed {A} (o : JsObject A) : Prop := NoDup o.*1.

Fixpoint parse_decimal (s : string) (acc : N) : option N :=
  match s with
  | String c s' =>
      let n := N_of_ascii c in
      if ((48 <=? n) && (n <=? 57))%N
      then parse_decimal s' (10 * acc + (n - 48))%N
      else None
  | EmptyString => Some acc
  end.

Definition array_index (k : string) : option N :=
  match k with
  | EmptyString => None
  | _ =>
      match parse_decimal k 0%N with
      | Some n =>
          if bool_decide (pretty n = k) && (n <? 4294967295)%N
          then Some n else None
      | None => None
      end
  end.

Definition index_le (a b : N * string) : Prop := (a.1 <= b.1)%N.

#[global] Instance index_le_dec a b : Decision (index_le a b).
Proof. unfold index_le. apply _. Defined.

Definition indexed_keys (ks : list string) : list (N * string) :=
  omap (fun k => (fun n => (n, k)) <$> array_index k) ks.

Definition is_index (k : string) : Prop := array_index k <> None.

#[global] Instance is_index_dec k : Decision (is_index k).
Proof. unfold is_index. apply _. Defined.

Definition named_keys (ks : list string) : list string :=
  filter (fun k => ~ is_index k) ks.

Definition Object_keys {A} (o : JsObject A) : list string :=
  (merge_sort index_le (indexed_keys o.*1)).*2 ++ named_keys o.*1.

End JS.

(* ===================================================================== *)
(** ** Documents and configuration tables *)
(* ===================================================================== *)

(** [item.system.type] of a feature. *)
Record FeatureType := { ft_value : string; ft_subtype : string }.

(** The part of [item.system] the validation reads; a field the item's data
    model does not define is [undefined]. *)
Record ItemSystem := {
  sys_type : option FeatureType;  (* system.type *)
  sys_level : option Z            (* system.level *)
}.

Record Item5e := { item_type : string; system : ItemSystem }.

(** An entry of [CONFIG.SW5E.featureTypes]. *)
Record FeatureTypeConfig := {
  label : string;
  subtypes : option (gmap string string)
}.

(** The host configuration the validation reads. *)
Record CONFIG := {
  typeLabels : gmap string string;             (* CONFIG.Item.typeLabels *)
  featureTypes : gmap string FeatureTypeConfig; (* CONFIG.SW5E.featureTypes *)
  powerLevels : gmap Z string                  (* CONFIG.SW5E.powerLevels *)
}.

(* ===================================================================== *)
(** ** ItemGrantAdvancement (the parent class of ItemChoiceAdvancement) *)
(* ===================================================================== *)

Module ItemGrantAdvancement.

(** Modelled from the spec: [ItemGrantAdvancement._validateItemType]
    (item-grant.mjs is not among the sources).  The validation contract
    "returns boolean pass/fail; when strict is true, fails with a
    ValidationError naming the mismatched type instead of returning false",
    with the test of [ItemGrantConfig._validateDroppedItem]: the item's type
    is one of [VALID_TYPES]. *)
Definition _validateItemType (VALID_TYPES : gset string)
    (item : Item5e) (strict : bool) : Outcome bool :=
  if bool_decide (item_type item ∈ VALID_TYPES) then Return true
  else if strict then
    Throw (Error {| msg_key := "SW5E.AdvancementItemTypeInvalidWarning";
                    msg_data := [("type", Localized
                      (Some ("ITEM.Type" +:+ JS.capitalize (item_type item))))] |})
  else Return false.

End ItemGrantAdvancement.

(* ===================================================================== *)
(** ** ItemChoiceAdvancement *)
(* ===================================================================== *)

Module ItemChoiceAdvancement.
Import JS.

(** [configuration.restriction] *)
Record Restriction := {
  r_type : option string;
  r_subtype : option string;
  r_level : option string
}.

Record Configuration := {
  choices : JsObject Z;             (* level -> number of choices *)
  cfg_type : option string;         (* configuration.type, null when unset *)
  restriction : option Restriction
}.

(** [value.added]: per level, the items added (local id -> source UUID). *)
Record Value := { added : option (gmap string (gmap string string)) }.

Record Advancement := { configuration : Configuration; value : Value }.

(** The second argument of [_validateItemType]:
    [{ type, restriction, strict=true }={}]. *)
Record ValidateOptions := {
  o_type : option string;
  o_restriction : option Restriction;
  o_strict : option bool
}.

Definition no_options : ValidateOptions :=
  {| o_type := None; o_restriction := None; o_strict := None |}.

(** [get levels()] *)
Definition levels (this : Advancement) : list string :=
  Object_keys (choices (configuration this)).

(** [configuredForLevel(level)]: [this.value.added?.[level] !== undefined] *)
Definition configuredForLevel (this : Advancement) (level : N) : bool :=
  match added (value this) with
  | Some a => bool_decide (a !! pretty level ≠ None)
  | None => false
  end.

(** [if ( strict ) throw new Error(game.i18n.format(key, data)); return false;] *)
Definition reject (strict : bool) (key : string) (data : list (string * Label))
  : Outcome bool :=
  if strict then Throw (Error {| msg_key := key; msg_data := data |})
  else Return false.

(** The key [CONFIG.Item.typeLabels[restriction]] reads: the restriction is an
    object (or undefined), coerced to a property key. *)
Definition restriction_key (r : option Restriction) : string :=
  match r with
  | Some _ => object_key
  | None => "undefined"
  end.

Section Validate.

(** The host configuration and the inherited method. *)
Variable config : CONFIG.
Variable super_validateItemType : Item5e -> bool -> Outcome bool.

(** The feature-type block of [_validateItemType]: [None] when the block
    raises no objection, [Some label] for the [errorLabel] it computes. *)
Definition feature_errorLabel (r : Restriction) (item : Item5e)
  : Outcome (option string) :=
  match featureTypes config !! to_key (r_type r) with
  | None => Throw (TypeError "typeConfig.subtypes")
  | Some typeConfig =>
      let subtype := subtypes typeConfig ≫= (fun m => m !! to_key (r_subtype r)) in
      match sys_type (system item) with
      | None => Throw (TypeError "item.system.type.value")
      | Some ft =>
          if negb (bool_decide (r_type r = Some (ft_value ft)))
          then Return (Some (label typeConfig))
          else if truthy subtype
                  && negb (bool_decide (r_subtype r = Some (ft_subtype ft)))
          then Return subtype
          else Return None
      end
  end.

(** The power-level block: [parseInt(restriction.level)] and the comparison
    with [item.system.level]. *)
Definition power_level_check (type : option string) (r : Restriction)
    (item : Item5e) (strict : bool) : Outcome bool :=
  match parseInt (r_level r) with
  | Some l =>
      if bool_decide (type = Some "power")
         && negb (bool_decide (sys_level (system item) = Some l))
      then reject strict "SW5E.AdvancementItemChoicePowerLevelSpecificWarning"
                  [("level", Plain (powerLevels config !! l))]
      else Return true
  | None => Return true
  end.

Definition _validateItemType (this : Advancement) (item : Item5e)
    (opts : ValidateOptions) : Outcome bool :=
  let strict := default true (o_strict opts) in
  obind (super_validateItemType item strict) (fun _ =>
  let type := nullish_or (o_type opts) (cfg_type (configuration this)) in
  let restriction :=
    nullish_or (o_restriction opts) (restriction (configuration this)) in
  (* Type restriction is set and the item type does not match the selected type *)
  if truthy type && negb (bool_decide (type = Some (item_type item))) then
    let typeLabel := Localized (typeLabels config !! restriction_key restriction) in
    reject strict "SW5E.AdvancementItemChoiceTypeWarning" [("type", typeLabel)]
  else
  match restriction with
  | None =>
      (* restriction.type or restriction.level read on undefined *)
      Throw (TypeError "restriction")
  | Some r =>
      (* If additional type restrictions applied, make sure they are valid *)
      obind
        (if bool_decide (type = Some "feat") && truthy (r_type r)
         then feature_errorLabel r item else Return None)
        (fun errorLabel =>
      if truthy errorLabel then
        reject strict "SW5E.AdvancementItemChoiceTypeWarning"
               [("type", Plain errorLabel)]
      else
      (* If power level is restricted, ensure the power is of the appropriate level *)
      power_level_check type r item strict)
  end).

End Validate.

End ItemChoiceAdvancement.

(* ===================================================================== *)
(** ** ItemGrantConfig *)
(* ===================================================================== *)

Module ItemGrantConfig.

(** [_validateDroppedItem(event, item)]; [VALID_TYPES] is the static set of
    the advancement's class.  The event is not read. *)
Definition _validateDroppedItem (VALID_TYPES : gset string) (item : Item5e)
  : Outcome bool :=
  if bool_decide (item_type item ∈ VALID_TYPES) then Return true
  else
    let type := Localized (Some ("ITEM.Type" +:+ JS.capitalize (item_type item))) in
    Throw (Error {| msg_key := "SW5E.AdvancementItemTypeInvalidWarning";
                    msg_data := [("type", type)] |}).

(** The error an item of a type the advancement cannot grant is refused with. *)
Definition invalid_type_warning (item : Item5e) : JsError :=
  Error {| msg_key := "SW5E.AdvancementItemTypeInvalidWarning";
           msg_data := [("type", Localized
             (Some ("ITEM.Type" +:+ JS.capitalize (item_type item))))] |}.

End ItemGrantConfig.

(* ===================================================================== *)
(** ** The actor, the host calls, and the monad of the handlers *)
(* ===================================================================== *)

(** A submitted form: field name and value. *)
Definition FormData : Type := list (string * string).

(** An item owned by the actor, with the fields the sheet reads. *)
Record OwnedItem := {
  id : string;
  name : string;
  type : string;
  identifier : string;          (* item.identifier *)
  classIdentifier : string;     (* system.classIdentifier (archetypes) *)
  levels : Z;                   (* system.levels (classes) *)
  archetype : option string     (* cls.archetype?.name (classes) *)
}.

(** The actor: its owned items, and the persisted [value] of every
    advancement of its items (advancement id -> level -> applied entry). *)
Record Actor5e := {
  items : list OwnedItem;
  advancements : gmap string (gmap N FormData)
}.

(** What a handler asks of the host, in the order it asks. *)
Inductive Effect :=
| PreventDefault
| ConfirmLevelDown (classId : string)
| RenderManager (classId : string) (delta : Z)
| NotifyError (m : Message)
| DocumentUpdate (itemId : string) (newLevels : Z)
| AdvancementApply (advancementId : string) (level : N) (data : FormData)
| AdvancementRestore (advancementId : string) (level : N) (data : FormData).

Record World := { actor : Actor5e; log : list Effect }.

Definition M (A : Type) : Type := World -> Outcome A * World.

Definition ret {A} (a : A) : M A := fun w => (Return a, w).
Definition throw {A} (e : JsError) : M A := fun w => (Throw e, w).
Definition bind {A B} (m : M A) (k : A -> M B) : M B :=
  fun w => match m w with
           | (Return a, w') => k a w'
           | (Throw e, w') => (Throw e, w')
           end.
Definition catch {A} (body : M A) (handler : JsError -> M A) : M A :=
  fun w => match body w with
           | (Return a, w') => (Return a, w')
           | (Throw e, w') => handler e w'
           end.
Definition emit (e : Effect) : M unit :=
  fun w => (Return tt, {| actor := actor w; log := log w ++ [e] |}).
Definition get_actor : M Actor5e := fun w => (Return (actor w), w).
Definition put_actor (a : Actor5e) : M unit :=
  fun w => (Return tt, {| actor := a; log := log w |}).

Declare Scope handler_scope.
Delimit Scope handler_scope with handler.
Notation "x <- m ;; k" := (bind m (fun x => k))
  (at level 100, m at next level, right associativity) : handler_scope.
Notation "m ;; k" := (bind m (fun _ => k))
  (at level 100, right associativity) : handler_scope.

(** The character's total level, [actor.system.details.level].

    Modelled from the spec: the derived data of the actor document is not
    among the sources; the total level is the sum of the levels of the
    actor's classes. *)
Definition class_levels (i : OwnedItem) : Z :=
  if bool_decide (type i = "class") then levels i else 0.

Definition details_level (a : Actor5e) : Z :=
  foldr (fun i acc => class_levels i + acc) 0 (items a).

(** [actor.items.get(id)] *)
Definition items_get (a : Actor5e) (itemId : string) : option OwnedItem :=
  List.find (fun i => bool_decide (id i = itemId)) (items a).

Definition set_levels (n : Z) (i : OwnedItem) : OwnedItem :=
  {| id := id i; name := name i; type := type i; identifier := identifier i;
     classIdentifier := classIdentifier i; levels := n;
     archetype := archetype i |}.

(** [item.update({"system.levels": n})] on the owned item at position [pos]:
    the document is changed in place in the actor's collection. *)
Definition update_levels (pos : nat) (n : Z) : M unit :=
  (a <- get_actor ;;
   match items a !! pos with
   | Some i =>
       emit (DocumentUpdate (id i) n) ;;
       put_actor {| items := <[pos := set_levels n i]> (items a);
                    advancements := advancements a |}
   | None => throw (TypeError "update")
   end)%handler.

(** Position of the first item that satisfies [p] ([Array.prototype.find]). *)
Fixpoint find_pos {A} (p : A -> bool) (l : list A) : option nat :=
  match l with
  | [] => None
  | x :: l' => if p x then Some 0%nat else S <$> find_pos p l'
  end.

(* ===================================================================== *)
(** ** AdvancementFlow *)
(* ===================================================================== *)

Module AdvancementFlow.

(** The item that houses the advancement: [item.advancement?.byId]. *)
Record Item := {
  item_id : string;
  advancement_byId : option (gmap string string)  (* advancement id -> its type *)
}.

Record Flow := {
  item : Item;
  _advancementId : string;
  level : N;
  retainedData : option FormData  (* null until the manager stores data *)
}.

(** [new AdvancementFlow(item, advancementId, level)] *)
Definition constructor (item : Item) (advancementId : string) (level : N) : Flow :=
  {| item := item; _advancementId := advancementId; level := level;
     retainedData := None |}.

(** [get advancement()]: the id of the advancement when the item has it,
    [null] otherwise. *)
Definition advancement (this : Flow) : option string :=
  match advancement_byId (item this) with
  | Some byId => if bool_decide (byId !! _advancementId this ≠ None)
                 then Some (_advancementId this) else None
  | None => None
  end.

(** The flow after the manager has stored [data] on it. *)
Definition with_retainedData (data : option FormData) (this : Flow) : Flow :=
  {| item := item this; _advancementId := _advancementId this;
     level := level this; retainedData := data |}.

Section Contract.

(** The methods of the advancement the flow talks to. *)
Variable apply : string -> N -> FormData -> M unit.
Variable restore : string -> N -> FormData -> M unit.

(** [async _updateObject(event, formData)] *)
Definition _updateObject (this : Flow) (formData : FormData) : M unit :=
  match advancement this with
  | Some adv => apply adv (level this) formData
  | None => throw (TypeError "this.advancement.apply")
  end.

(** The submission as the specification words it: restore when the flow holds
    retained data, apply otherwise. *)
Definition _updateObject_as_specified (this : Flow) (formData : FormData)
  : M unit :=
  match advancement this with
  | Some adv =>
      match retainedData this with
      | Some data => restore adv (level this) data
      | None => apply adv (level this) formData
      end
  | None => throw (TypeError "this.advancement")
  end.

End Contract.

(** An advancement whose methods only record that they were called. *)
Definition recording_apply (adv : string) (level : N) (data : FormData) : M unit :=
  emit (AdvancementApply adv level data).
Definition recording_restore (adv : string) (level : N) (data : FormData) : M unit :=
  emit (AdvancementRestore adv level data).

End AdvancementFlow.

(* ===================================================================== *)
(** ** AdvancementManager *)
(* ===================================================================== *)

Module AdvancementManager.

(** Modelled from the spec: the Advancement Manager (advancement-manager.mjs
    is not among the sources).  "actor: the actor being advanced; clone: a
    detached, speculative copy of the actor used to preview changes without
    mutating the real actor until the user commits; steps: ordered sequence
    of {type: forward|reverse, advancement reference, level, flow};
    stepIndex: current cursor into steps."  The flow of a step is
    represented by the data it retains. *)
Inductive StepType := forward | reverse.

Record Step := {
  step_type : StepType;
  step_advancement : string;
  step_level : N;
  step_retained : option FormData
}.

(** Modelled from the spec: the states of the manager,
    "Idle -> Built -> Stepping -> (Committing | Cancelled)"; after the batch
    update of a commit the manager is [Committed]. *)
Inductive Phase := Built | Stepping | Committing | Committed | Cancelled.

Record Manager := {
  actor : Actor5e;
  clone : Actor5e;
  steps : list Step;
  stepIndex : nat;
  phase : Phase
}.

(** Modelled from the spec: construction leaves the manager [Built], with
    the clone a copy of the actor and the cursor on the first step. *)
Definition create (a : Actor5e) (steps : list Step) : Manager :=
  {| actor := a; clone := a; steps := steps; stepIndex := 0; phase := Built |}.

(** Reading and writing the applied entry of an advancement at a level. *)
Definition value_at (a : Actor5e) (adv : string) (lvl : N) : option FormData :=
  advancements a !! adv ≫= (fun v => v !! lvl).

Definition set_value (a : Actor5e) (adv : string) (lvl : N)
    (entry : option FormData) : Actor5e :=
  let v := default ∅ (advancements a !! adv) in
  let v' := match entry with
            | Some e => <[lvl := e]> v
            | None => delete lvl v
            end in
  {| items := items a; advancements := <[adv := v']> (advancements a) |}.

Definition retain (s : Step) (data : option FormData) : Step :=
  {| step_type := step_type s; step_advancement := step_advancement s;
     step_level := step_level s; step_retained := data |}.

(** Modelled from the spec: "apply(level, formData) commits the effect of
    this advancement at level; mutates value"; "reverse(level) undoes the
    effect applied at level, returning enough state to later restore;
    mutates value to remove the level's entry"; "restore(level,
    retainedData) reapplies a previously reversed level using retained
    data".  A step runs on the clone; the result is the new clone and the
    step with the data its flow retains. *)
Definition run_step (s : Step) (formData : FormData) (c : Actor5e)
  : Actor5e * Step :=
  match step_type s with
  | forward =>
      let entry := default formData (step_retained s) in
      (set_value c (step_advancement s) (step_level s) (Some entry), s)
  | reverse =>
      let kept := value_at c (step_advancement s) (step_level s) in
      (set_value c (step_advancement s) (step_level s) None, retain s kept)
  end.

(** Re-entering a step undoes what it did to the clone: a forward step is
    reversed (its entry is retained for the redo), a reverse step is restored
    from the data it retained. *)
Definition undo_step (s : Step) (c : Actor5e) : Actor5e * Step :=
  match step_type s with
  | forward =>
      let kept := value_at c (step_advancement s) (step_level s) in
      (set_value c (step_advancement s) (step_level s) None, retain s kept)
  | reverse =>
      (set_value c (step_advancement s) (step_level s) (step_retained s), s)
  end.

Definition stepping (m : Manager) : bool :=
  match phase m with
  | Built | Stepping => true
  | _ => false
  end.

(** Modelled from the spec: "advance" runs the current step on the clone and
    moves the cursor; "advancing past the last step transitions to
    Committing". *)
Definition advance (formData : FormData) (m : Manager) : Manager :=
  if stepping m then
    match steps m !! stepIndex m with
    | Some s =>
        let '(c, s') := run_step s formData (clone m) in
        let i := S (stepIndex m) in
        {| actor := actor m; clone := c;
           steps := <[stepIndex m := s']> (steps m);
           stepIndex := i;
           phase := if bool_decide (i = length (steps m)) then Committing
                    else Stepping |}
    | None =>
        {| actor := actor m; clone := clone m; steps := steps m;
           stepIndex := stepIndex m; phase := Committing |}
    end
  else m.

(** Modelled from the spec: "retreat" re-enters the previous step. *)
Definition retreat (m : Manager) : Manager :=
  match phase m, stepIndex m with
  | (Stepping | Committing), S i =>
      match steps m !! i with
      | Some s =>
          let '(c, s') := undo_step s (clone m) in
          {| actor := actor m; clone := c; steps := <[i := s']> (steps m);
             stepIndex := i; phase := Stepping |}
      | None => m
      end
  | _, _ => m
  end.

(** Modelled from the spec: "Commit applies the clone's accumulated changes
    to the real actor in one batch update; on failure, the real actor must
    remain in its pre-manager state."  [persisted] tells whether the host's
    update succeeded. *)
Definition commit (persisted : bool) (m : Manager) : Manager :=
  match phase m with
  | Committing =>
      if persisted then
        {| actor := clone m; clone := clone m; steps := steps m;
           stepIndex := stepIndex m; phase := Committed |}
      else
        {| actor := actor m; clone := clone m; steps := steps m;
           stepIndex := stepIndex m; phase := Cancelled |}
  | _ => m
  end.

(** Modelled from the spec: "Cancellation: at any point before commit,
    discarding the manager must leave the real actor untouched; the clone is
    simply dropped."  What remains of a discarded manager is its actor. *)
Definition cancel (m : Manager) : Actor5e := actor m.

(** What the user can do with an open manager before it commits. *)
Inductive Action :=
| Advance (formData : FormData)
| Retreat.

Definition act (m : Manager) (a : Action) : Manager :=
  match a with
  | Advance formData => advance formData m
  | Retreat => retreat m
  end.

Definition run (m : Manager) (actions : list Action) : Manager :=
  foldl act m actions.

End AdvancementManager.

(* ===================================================================== *)
(** ** ActorSheet5eCharacter *)
(* ===================================================================== *)

Module ActorSheet5eCharacter.

(** The change event of the level selector: [Number(event.target.value)]
    ([None] for NaN) and [event.target.closest(".item")?.dataset.itemId]. *)
Record ChangeEvent := { value : option Z; itemId : option string }.

(** What the user does with the level-down confirmation dialog. *)
Inductive DialogResponse :=
| Resolve (shouldRemoveAdvancements : bool)
| Reject.

(** Modelled from the spec: [AdvancementConfirmationDialog.forLevelDown]
    (advancement-confirmation-dialog.mjs is not among the sources).  "A
    confirmation prompt must be shown"; confirming resolves the promise with
    whether the advancements are to be removed, and "ConfirmationDeclined
    (user explicitly cancels a destructive reverse)" is "not an error, a
    control-flow signal": the promise rejects. *)
Definition forLevelDown (response : DialogResponse) (classId : string) : M bool :=
  (emit (ConfirmLevelDown classId) ;;
   match response with
   | Resolve shouldRemoveAdvancements => ret shouldRemoveAdvancements
   | Reject => throw Rejected
   end)%handler.

Inductive LevelChangeResult :=
| Undefined   (* return; *)
| Rendered    (* return manager.render(true) *)
| Updated.    (* return classItem.update(...) *)

(** The dropped item's data, with the fields the sheet reads. *)
Record ItemData := {
  d_type : string;
  d_levels : Z;              (* system.levels *)
  d_identifier : string;     (* system.identifier *)
  d_classIdentifier : string (* system.classIdentifier *)
}.

Definition with_levels (n : Z) (d : ItemData) : ItemData :=
  {| d_type := d_type d; d_levels := n; d_identifier := d_identifier d;
     d_classIdentifier := d_classIdentifier d |}.

Inductive DropResult :=
| DropFalse                       (* return false *)
| DropSuper (itemData : ItemData). (* return super._onDropSingleItem(itemData) *)

Definition has_steps (m : AdvancementManager.Manager) : bool :=
  negb (Nat.eqb (length (AdvancementManager.steps m)) 0).

Definition render (classId : string) (delta : Z) : M unit :=
  emit (RenderManager classId delta).

Definition notify (key : string) (data : list (string * Label)) : M unit :=
  emit (NotifyError {| msg_key := key; msg_data := data |}).

Section Sheet.

Variable maxLevel : Z.                (* CONFIG.SW5E.maxLevel *)
Variable disableAdvancements : bool.  (* game.settings.get("sw5e", "disableAdvancements") *)
Variable forLevelChange : Actor5e -> string -> Z -> AdvancementManager.Manager.
Variable response : DialogResponse.

(** [classItem.update({"system.levels": classItem.system.levels + delta})] *)
Definition update_class (a : Actor5e) (classItem : option nat) (delta : Z)
  : M unit :=
  match classItem with
  | Some pos =>
      match items a !! pos with
      | Some c => update_levels pos (levels c + delta)
      | None => throw (TypeError "classItem.update")
      end
  | None => throw (TypeError "classItem.update")
  end.

(** [async _onLevelChange(event)] *)
Definition _onLevelChange (event : ChangeEvent) : M LevelChangeResult :=
  (emit PreventDefault ;;
   match value event, itemId event with
   | Some delta, Some classId =>
       if (delta =? 0) || bool_decide (classId = "") then ret Undefined else
       a <- get_actor ;;
       let classItem := find_pos (fun i => bool_decide (id i = classId)) (items a) in
       let update := (update_class a classItem delta ;; ret Updated) in
       if negb disableAdvancements then
         let manager := forLevelChange a classId delta in
         if has_steps manager then
           if 0 <? delta then (render classId delta ;; ret Rendered)
           else
             returned <-
               catch
                 (shouldRemoveAdvancements <- forLevelDown response classId ;;
                  if shouldRemoveAdvancements : bool
                  then (render classId delta ;; ret (Some Rendered))
                  else ret None)
                 (fun err => ret (Some Undefined)) ;;
             match returned with
             | Some r => ret r
             | None => update
             end
         else update
       else update
   | _, _ => ret Undefined
   end)%handler.

Definition is_class_with (ident : string) (i : OwnedItem) : bool :=
  bool_decide (type i = "class") && bool_decide (identifier i = ident).

Definition is_archetype_with (ident : string) (i : OwnedItem) : bool :=
  bool_decide (type i = "archetype") && bool_decide (identifier i = ident).

(** [async _onDropSingleItem(itemData)] *)
Definition _onDropSingleItem (itemData : ItemData) : M DropResult :=
  (a <- get_actor ;;
   (* Increment the number of class levels a character instead of creating a new item *)
   if bool_decide (d_type itemData = "class") then
     let charLevel := details_level a in
     let itemData :=
       with_levels (Z.min (d_levels itemData) (maxLevel - charLevel)) itemData in
     if d_levels itemData <=? 0 then
       notify "SW5E.MaxCharacterLevelExceededWarn"
              [("max", Plain (Some (pretty maxLevel)))] ;;
       ret DropFalse
     else
       let cls := find_pos (is_class_with (d_identifier itemData)) (items a) in
       match cls ≫= (fun pos => (fun c => (pos, c)) <$> items a !! pos) with
       | Some (pos, c) =>
           let priorLevel := levels c in
           let update :=
             (update_levels pos (priorLevel + d_levels itemData) ;; ret DropFalse) in
           if negb disableAdvancements then
             let manager := forLevelChange a (id c) (d_levels itemData) in
             if has_steps manager then
               render (id c) (d_levels itemData) ;; ret DropFalse
             else update
           else update
       | None => ret (DropSuper itemData)
       end
   (* If a archetype is dropped, ensure it doesn't match another archetype with the same identifier *)
   else if bool_decide (d_type itemData = "archetype") then
     match List.find (is_archetype_with (d_identifier itemData)) (items a) with
     | Some other =>
         notify "SW5E.ArchetypeDuplicateError"
                [("identifier", Plain (Some (identifier other)))] ;;
         ret DropFalse
     | None =>
         match List.find (is_class_with (d_classIdentifier itemData)) (items a) with
         | Some cls =>
             match archetype cls with
             | Some archetypeName =>
                 notify "SW5E.ArchetypeAssignmentError"
                        [("class", Plain (Some (name cls)));
                         ("archetype", Plain (Some archetypeName))] ;;
                 ret DropFalse
             | None => ret (DropSuper itemData)
             end
         | None => ret (DropSuper itemData)
         end
     end
   else ret (DropSuper itemData))%handler.

(** The notification of a drop that would exceed the maximum level. *)
Definition max_level_warning : Effect :=
  NotifyError {| msg_key := "SW5E.MaxCharacterLevelExceededWarn";
                 msg_data := [("max", Plain (Some (pretty maxLevel)))] |}.

(** The three ways a class drop that grants levels can end. *)
Definition drop_outcome (granted : Z) (itemData : ItemData) (w : World)
    (run : Outcome DropResult * World) : Prop :=
  run = (Return (DropSuper (with_levels granted itemData)), w)
  \/ (exists c, c ∈ items (actor w)
        /\ run = (Return DropFalse,
                  {| actor := actor w;
                     log := log w ++ [RenderManager (id c) granted] |}))
  \/ (exists pos c, items (actor w) !! pos = Some c /\ type c = "class"
        /\ run = (Return DropFalse,
                  {| actor := {| items := <[pos := set_levels (levels c + granted) c]>
                                            (items (actor w));
                                 advancements := advancements (actor w) |};
                     log := log w ++ [DocumentUpdate (id c) (levels c + granted)] |})).

End Sheet.

End ActorSheet5eCharacter.

(* ===================================================================== *)
(** ** utils: formulas *)
(* ===================================================================== *)

Module utils.

(** A bonus is a number, a string, or null (an unset field is undefined). *)
Inductive Bonus (JsNumber : Type) :=
| BNull
| BUndefined
| BNumber (x : JsNumber)
| BString (s : string).
Arguments BNull {JsNumber}.
Arguments BUndefined {JsNumber}.
Arguments BNumber {JsNumber} x.
Arguments BString {JsNumber} s.

Section Formulas.

(** Numbers and the dice engine belong to the JavaScript runtime and to the
    host; the function is written over their interface. *)
Variable JsNumber : Type.
Variable zero : JsNumber.
Variable number_is_falsy : JsNumber -> bool.             (* 0, -0 and NaN *)
Variable Number_isNumeric : Bonus JsNumber -> bool.      (* Number.isNumeric(n) *)
Variable Number : Bonus JsNumber -> JsNumber.            (* Number(n) *)
Variable Data : Type.
Variable Roll : Type.
Variable new_Roll : Bonus JsNumber -> Data -> Outcome Roll. (* new Roll(formula, data) *)
Variable isDeterministic : Roll -> bool.
Variable formula : Roll -> string.
Variable Roll_safeEval : string -> Outcome JsNumber.     (* Roll.safeEval(expression) *)

(** [!bonus] *)
Definition falsy (bonus : Bonus JsNumber) : bool :=
  match bonus with
  | BNull | BUndefined => true
  | BNumber x => number_is_falsy x
  | BString s => bool_decide (s = "")
  end.

(** [simplifyBonus(bonus, data={})]; the [console.error(error)] of the
    handler writes to the console only. *)
Definition simplifyBonus (bonus : Bonus JsNumber) (data : Data)
  : Outcome JsNumber :=
  if falsy bonus then Return zero
  else if Number_isNumeric bonus then Return (Number bonus)
  else
    try_catch
      (obind (new_Roll bonus data) (fun roll =>
         if isDeterministic roll then Roll_safeEval (formula roll)
         else Return zero))
      (fun error => Return zero).

(** The number the function is to return, case by case: [n] is the
    simplified bonus. *)
Definition simplified (bonus : Bonus JsNumber) (data : Data) (n : JsNumber)
  : Prop :=
  if falsy bonus then n = zero
  else if Number_isNumeric bonus then n = Number bonus
  else
    match new_Roll bonus data with
    | Return roll =>
        if isDeterministic roll then
          match Roll_safeEval (formula roll) with
          | Return v => n = v
          | Throw _ => n = zero
          end
        else n = zero
    | Throw _ => n = zero
    end.

End Formulas.

End utils.

(* ===================================================================== *)
(** ** ItemGrantConfig: the context of the configuration sheet *)
(* ===================================================================== *)

Module ItemGrantConfigData.

(** [getData()]: [context.showPowerConfig =
    context.configuration.items.map(fromUuidSync).some(i => i.type === "power")].
    Every UUID is resolved first ([None] is the [null] of a UUID that does
    not resolve); [some] then reads [i.type] from left to right and stops at
    the first power. *)
Fixpoint some_power (resolved : list (option Item5e)) : Outcome bool :=
  match resolved with
  | [] => Return false
  | None :: _ => Throw (TypeError "i.type")
  | Some i :: rest =>
      if bool_decide (item_type i = "power") then Return true
      else some_power rest
  end.

Definition showPowerConfig (fromUuidSync : string -> option Item5e)
    (items : list string) : Outcome bool :=
  some_power (fromUuidSync <$> items).

End ItemGrantConfigData.

(* ===================================================================== *)
(** ** AdvancementFlow: the identifier of the application *)
(* ===================================================================== *)

Module AdvancementFlowId.
Import AdvancementFlow.

(** [get id()]:
    [`actor-${this.advancement.item.id}-advancement-${this.advancement.id}-${this.level}`];
    the advancement's item is the flow's item. *)
Definition id (this : Flow) : Outcome string :=
  match advancement this with
  | Some adv =>
      Return ("actor-" +:+ item_id (item this) +:+ "-advancement-" +:+ adv
              +:+ "-" +:+ pretty (level this))
  | None => Throw (TypeError "this.advancement.item")
  end.

End AdvancementFlowId.

(* ===================================================================== *)
(** ** The system module: validation strictness *)
(* ===================================================================== *)

Module System.

(** What [_configureValidationStrictness] reads of the game, and the
    setting it may write. *)
Record Game := {
  isGM : bool;                  (* game.user.isGM *)
  invalidActors : nat;          (* game.actors.invalidDocumentIds.size *)
  invalidItems : nat;           (* game.items.invalidDocumentIds.size *)
  invalidScenes : nat;          (* game.scenes.invalidDocumentIds.size *)
  strictValidation : bool       (* game.settings.get("sw5e", "strictValidation") *)
}.

Inductive Signal :=
| SocketReload       (* game.socket.emit("reload") *)
| DebouncedReload.   (* foundry.utils.debouncedReload() *)

(** [async _configureValidationStrictness()] *)
Definition _configureValidationStrictness (game : Game) : Game * list Signal :=
  if negb (isGM game) then (game, [])
  else
    let invalidDocuments :=
      (invalidActors game + invalidItems game + invalidScenes game)%nat in
    if negb (Nat.eqb invalidDocuments 0) && strictValidation game then
      ({| isGM := isGM game; invalidActors := invalidActors game;
          invalidItems := invalidItems game; invalidScenes := invalidScenes game;
          strictValidation := false |},
       [SocketReload; DebouncedReload])
    else (game, []).

End System.

(* ===================================================================== *)
(** ** ActorSheet5eCharacter: preparing the items for display *)
(* ===================================================================== *)

Module CharacterSheetItems.

(** [Array.fromRange(n)] of the host: the integers from 0 to [n - 1]. *)
Definition Array_fromRange (n : Z) : list Z :=
  Z.of_nat <$> seq 0 (Z.to_nat n).

(** An entry of [ctx.availableLevels]. *)
Record LevelOption := { level : Z; delta : Z; disabled : bool }.

(** In [_prepareItems]:
    [ctx.availableLevels = Array.fromRange(CONFIG.SW5E.maxLevel + 1).slice(1).map(...)]. *)
Definition availableLevels (maxLevel : Z) (a : Actor5e) (cls : OwnedItem)
  : list LevelOption :=
  let maxLevelDelta := maxLevel - details_level a in
  (fun level =>
     let delta := level - levels cls in
     {| level := level; delta := delta; disabled := maxLevelDelta <? delta |})
  <$> drop 1 (Array_fromRange (maxLevel + 1)).

(** [Array.prototype.sort(compare)]: a stable sort; [x] goes before the first
    element it does not compare greater than. *)
Fixpoint sort_insert {A} (compare : A -> A -> Z) (x : A) (l : list A) : list A :=
  match l with
  | [] => [x]
  | y :: l' =>
      if compare x y <=? 0 then x :: y :: l'
      else y :: sort_insert compare x l'
  end.

Definition Array_sort {A} (compare : A -> A -> Z) (l : list A) : list A :=
  foldr (sort_insert compare) [] l.

(** [Array.prototype.findSplice(find)] of the host: the first element that
    satisfies [find] is removed from the array and returned. *)
Fixpoint findSplice {A} (find : A -> bool) (l : list A) : option A * list A :=
  match l with
  | [] => (None, [])
  | x :: l' =>
      if find x then (Some x, l')
      else let '(r, rest) := findSplice find l' in (r, x :: rest)
  end.

(** [item.type === "class"] *)
Definition is_class (i : OwnedItem) : Prop := type i = "class".

#[global] Instance is_class_dec i : Decision (is_class i).
Proof. unfold is_class. apply _. Defined.

(** A warning shown on the sheet. *)
Record Warning := { message : Message; warning_type : string }.

Section Classes.

(** [cls.system.identifier] (empty when unset) and [String.prototype.slugify]
    of the host. *)
Variable system_identifier : OwnedItem -> string.
Variable slugify : string -> string.

(** The body of [classes.reduce((arr, cls) => ...)] without the level
    options: the class, then the archetype that names it, taken out of
    [archetypes]. *)
Definition interleave_step (acc : list OwnedItem * list OwnedItem)
    (cls : OwnedItem) : list OwnedItem * list OwnedItem :=
  let '(arr, archetypes) := acc in
  let identifier :=
    if bool_decide (system_identifier cls = "") then slugify (name cls)
    else system_identifier cls in
  match findSplice (fun s => bool_decide (classIdentifier s = identifier))
          archetypes with
  | (Some archetype, rest) => (arr ++ [cls; archetype], rest)
  | (None, rest) => (arr ++ [cls], rest)
  end.

Definition mismatch_warning (archetype : OwnedItem) : Warning :=
  {| message := {| msg_key := "SW5E.ArchetypeMismatchWarn";
                   msg_data := [("name", Plain (Some (name archetype)));
                                ("class", Plain (Some (classIdentifier archetype)))] |};
     warning_type := "warning" |}.

(** In [_prepareItems]: "Sort classes and interleave matching archetypes, put
    unmatched archetypes into features so they don't disappear".  The result
    is the list of classes to display, the features, and the warnings. *)
Definition organize_classes (classes archetypes feats : list OwnedItem)
    (warnings : list Warning)
  : list OwnedItem * list OwnedItem * list Warning :=
  let sorted := Array_sort (fun a b => levels b - levels a) classes in
  let '(arr, unmatched) := foldl interleave_step ([], archetypes) sorted in
  (arr, feats ++ unmatched, warnings ++ (mismatch_warning <$> unmatched)).

End Classes.

(** *** The toggle of an item *)

(** [item.system.preparation] of a power. *)
Record Preparation := { mode : option string; prepared : option bool }.

(** The part of an item the toggle reads; a field the item's data model does
    not define is [undefined]. *)
Record ToggleItem := {
  toggle_id : string;
  toggle_type : string;
  preparation : option Preparation;  (* system.preparation *)
  equipped : option bool             (* system.equipped *)
}.

(** The fields of the display context the preparation writes. *)
Record ToggleContext := {
  toggleClass : option string;
  toggleTitle : option Label;
  canToggle : option bool
}.

(** [!!v] of a boolean-or-undefined value. *)
Definition truthy_bool (v : option bool) : bool := default false v.

Section Toggle.

(** [CONFIG.SW5E.powerPreparationModes] *)
Variable powerPreparationModes : gmap string string.

(** [_prepareItemToggleState(item, context)] *)
Definition _prepareItemToggleState (item : ToggleItem) (context : ToggleContext)
  : ToggleContext :=
  if bool_decide (toggle_type item = "power") then
    let prep_mode := preparation item ≫= mode in
    let prep_prepared := preparation item ≫= prepared in
    let isAlways := bool_decide (prep_mode = Some "always") in
    let isPrepared := truthy_bool prep_prepared in
    {| toggleClass :=
         if isAlways then Some "fixed"
         else Some (if isPrepared then "active" else "");
       toggleTitle :=
         if isAlways then Some (Plain (powerPreparationModes !! "always"))
         else if isPrepared then Some (Plain (powerPreparationModes !! "prepared"))
         else Some (Localized (Some "SW5E.PowerUnprepared"));
       canToggle := canToggle context |}
  else
    let isActive := truthy_bool (equipped item) in
    {| toggleClass := Some (if isActive then "active" else "");
       toggleTitle :=
         Some (Localized (Some (if isActive then "SW5E.Equipped"
                                else "SW5E.Unequipped")));
       canToggle := Some (bool_decide (equipped item <> None)) |}.

End Toggle.

(** [item.update({[attr]: !foundry.utils.getProperty(item, attr)})] with
    [attr] the path "system.preparation.prepared" of a power and
    "system.equipped" of any other item. *)
Definition toggled (item : ToggleItem) : ToggleItem :=
  if bool_decide (toggle_type item = "power") then
    let current := preparation item ≫= prepared in
    {| toggle_id := toggle_id item; toggle_type := toggle_type item;
       preparation :=
         Some {| mode := preparation item ≫= mode;
                 prepared := Some (negb (truthy_bool current)) |};
       equipped := equipped item |}
  else
    {| toggle_id := toggle_id item; toggle_type := toggle_type item;
       preparation := preparation item;
       equipped := Some (negb (truthy_bool (equipped item))) |}.

(** What a click is to do to the class of the toggle. *)
Definition flipped (toggleClass : option string) : option string :=
  match toggleClass with
  | Some "active" => Some ""
  | Some "" => Some "active"
  | other => other
  end.

(** [_onToggleItem(event)] on the items of the actor: the item of the clicked
    row is looked up by its id and updated. *)
Definition _onToggleItem (itemId : string) (items : list ToggleItem)
  : Outcome (list ToggleItem) :=
  match find_pos (fun i => bool_decide (toggle_id i = itemId)) items with
  | Some pos =>
      match items !! pos with
      | Some item => Return (<[pos := toggled item]> items)
      | None => Throw (TypeError "item.type")
      end
  | None => Throw (TypeError "item.type")
  end.

End CharacterSheetItems.

(* ===================================================================== *)
(** ** Regular expressions *)
(* ===================================================================== *)

Module RegExp.

(** The patterns the sources use: classes of characters, sequence,
    alternative and repetition.  [Fail] matches nothing, [Eps] the empty
    string. *)
Inductive regex :=
| Fail
| Eps
| Chars (class : ascii -> bool)
| Cat (r1 r2 : regex)
| Or (r1 r2 : regex)
| Star (r : regex).

(** [r+] *)
Definition Plus (r : regex) : regex := Cat r (Star r).

Fixpoint nullable (r : regex) : bool :=
  match r with
  | Fail => false
  | Eps => true
  | Chars _ => false
  | Cat r1 r2 => nullable r1 && nullable r2
  | Or r1 r2 => nullable r1 || nullable r2
  | Star _ => true
  end.

(** What is left of [r] to match after the character [c]. *)
Fixpoint after (c : ascii) (r : regex) : regex :=
  match r with
  | Fail => Fail
  | Eps => Fail
  | Chars class => if class c then Eps else Fail
  | Cat r1 r2 =>
      if nullable r1 then Or (Cat (after c r1) r2) (after c r2)
      else Cat (after c r1) r2
  | Or r1 r2 => Or (after c r1) (after c r2)
  | Star r1 => Cat (after c r1) (Star r1)
  end.

(** [/^r$/.test(s)]: the whole string matches. *)
Fixpoint test (r : regex) (s : string) : bool :=
  match s with
  | EmptyString => nullable r
  | String c s' => test (after c r) s'
  end.

(** The strings a pattern stands for. *)
Inductive Matches : regex -> string -> Prop :=
| MEps : Matches Eps ""
| MChars class c : class c = true -> Matches (Chars class) (String c "")
| MCat r1 r2 s1 s2 :
    Matches r1 s1 -> Matches r2 s2 -> Matches (Cat r1 r2) (s1 +:+ s2)
| MOrL r1 r2 s : Matches r1 s -> Matches (Or r1 r2) s
| MOrR r1 r2 s : Matches r2 s -> Matches (Or r1 r2) s
| MStar0 r : Matches (Star r) ""
| MStarS r s1 s2 :
    Matches r s1 -> Matches (Star r) s2 -> Matches (Star r) (s1 +:+ s2).

(** Every character of the string is in the class. *)
Fixpoint all_chars (class : ascii -> bool) (s : string) : bool :=
  match s with
  | EmptyString => true
  | String c s' => class c && all_chars class s'
  end.

Definition in_range (lo hi : N) (c : ascii) : bool :=
  let n := N_of_ascii c in ((lo <=? n) && (n <=? hi))%N.

Definition lower (c : ascii) : ascii :=
  let n := N_of_ascii c in
  if ((65 <=? n) && (n <=? 90))%N then ascii_of_N (n + 32) else c.

(** A class under the flag [i]: a character matches when it, its upper case
    or its lower case is in the class. *)
Definition ignore_case (class : ascii -> bool) (c : ascii) : bool :=
  class c || class (JS.upper c) || class (lower c).

End RegExp.

(* ===================================================================== *)
(** ** utils: validators, objects, indices, migration of powers *)
(* ===================================================================== *)

Module utilsHelpers.
Import JS.

(** *** Validators *)

(** The class [[a-z0-9_-]]. *)
Definition identifier_class (c : ascii) : bool :=
  RegExp.in_range 97 122 c || RegExp.in_range 48 57 c
  || bool_decide (c = "_"%char) || bool_decide (c = "-"%char).

(** A letter of either case, a digit, an underscore or a hyphen. *)
Definition is_identifier_char (c : ascii) : bool :=
  RegExp.in_range 97 122 c || RegExp.in_range 65 90 c || RegExp.in_range 48 57 c
  || bool_decide (c = "_"%char) || bool_decide (c = "-"%char).

(** [isValidIdentifier(identifier)]: [/^([a-z0-9_-]+)$/i.test(identifier)] *)
Definition isValidIdentifier (identifier : string) : bool :=
  RegExp.test (RegExp.Plus (RegExp.Chars (RegExp.ignore_case identifier_class)))
    identifier.

(** *** Objects *)

(** [obj[k]] *)
Fixpoint get {A} (k : string) (o : JsObject A) : option A :=
  match o with
  | [] => None
  | (k', v) :: o' => if bool_decide (k' = k) then Some v else get k o'
  end.

(** [obj[k] = v]: an existing property keeps its place, a new one is created
    last. *)
Fixpoint set {A} (k : string) (v : A) (o : JsObject A) : JsObject A :=
  match o with
  | [] => [(k, v)]
  | (k', v') :: o' =>
      if bool_decide (k' = k) then (k, v) :: o' else (k', v') :: set k v o'
  end.

(** [Object.entries(obj)] *)
Definition Object_entries {A} (o : JsObject A) : list (string * A) :=
  omap (fun k => (fun v => (k, v)) <$> get k o) (Object_keys o).

(** [Object.fromEntries(entries)] *)
Definition Object_fromEntries {A} (entries : list (string * A)) : JsObject A :=
  foldl (fun o e => set e.1 e.2 o) [] entries.

(** A value of a configuration object: a string, an object whose fields are
    strings, null, or something else (with its [typeof]). *)
Inductive ConfigValue :=
| CString (s : string)
| CObject (fields : JsObject string)
| CNull
| COther (typeof : string).

(** [s[k]] of a string: the character at an index. *)
Definition char_at (s : string) (k : string) : option string :=
  array_index k ≫= (fun n => (fun c => String c "") <$> String.get (N.to_nat n) s).

Section Sorting.

(** [String.prototype.localeCompare] of the runtime. *)
Variable localeCompare : string -> string -> Z.

(** What the comparison of [sortObjectEntries] reads of a value: [a[1]]
    without a sort key, [a[1][sortKey]] with one; [None] when this is not a
    string. *)
Definition sort_label (sortKey : option string) (v : ConfigValue)
  : option string :=
  if truthy sortKey then
    match v with
    | CObject fields => get (to_key sortKey) fields
    | CString s => char_at s (to_key sortKey)
    | _ => None
    end
  else
    match v with
    | CString s => Some s
    | _ => None
    end.

Definition compare_entries (sortKey : option string)
    (a b : string * ConfigValue) : Z :=
  localeCompare (default "" (sort_label sortKey a.2))
                (default "" (sort_label sortKey b.2)).

(** [sortObjectEntries(obj, sortKey)].  With fewer than two entries nothing
    is compared.  Otherwise the result is [None] when a value has no string
    to compare: what happens then (a TypeError, or a comparison with the
    text of the value) depends on the order in which the engine's sort
    presents the entries to the comparison. *)
Definition sortObjectEntries (obj : JsObject ConfigValue)
    (sortKey : option string) : option (JsObject ConfigValue) :=
  let entries := Object_entries obj in
  if bool_decide (length entries < 2)%nat then Some (Object_fromEntries entries)
  else if forallb (fun e => bool_decide (sort_label sortKey e.2 <> None)) entries
  then Some (Object_fromEntries
               (CharacterSheetItems.Array_sort (compare_entries sortKey) entries))
  else None.

End Sorting.

(** *** Pre-localization *)

Section Localization.

(** [game.i18n.localize] *)
Variable localize : string -> string.

(** The loop [for ( const key of keys )] over an object value. *)
Definition localize_fields (keys : list string) (fields : JsObject string)
  : JsObject string :=
  foldl (fun v key =>
           match get key v with
           | Some s => if bool_decide (s = "") then v else set key (localize s) v
           | None => v
           end) fields keys.

Inductive LocalizationError :=
| NotStringOrObject (typeof key : string)
| NoLocalizationKeys.

(** [!keys?.length] *)
Definition no_keys (keys : option (list string)) : bool :=
  match keys with
  | Some (_ :: _) => false
  | _ => true
  end.

(** The loop of [_localizeObject] over the entries that are left: the
    object as it is so far, and what was written to the console.  Reading a
    field of null stops the loop with a TypeError. *)
Fixpoint localize_loop (keys : option (list string))
    (entries : list (string * ConfigValue))
    (obj : JsObject ConfigValue) (errors : list LocalizationError)
  : option JsError * JsObject ConfigValue * list LocalizationError :=
  match entries with
  | [] => (None, obj, errors)
  | (k, v) :: rest =>
      match v with
      | CString s => localize_loop keys rest (set k (CString (localize s)) obj) errors
      | COther typeof =>
          localize_loop keys rest obj (errors ++ [NotStringOrObject typeof k])
      | CObject fields =>
          if no_keys keys then localize_loop keys rest obj (errors ++ [NoLocalizationKeys])
          else localize_loop keys rest
                 (set k (CObject (localize_fields (default [] keys) fields)) obj)
                 errors
      | CNull =>
          if no_keys keys then localize_loop keys rest obj (errors ++ [NoLocalizationKeys])
          else (Some (TypeError "v[key]"), obj, errors)
      end
  end.

(** What the loop is to leave of a value, and what it is to write to the
    console for an entry. *)
Definition localized_value (keys : option (list string)) (v : ConfigValue)
  : ConfigValue :=
  match v with
  | CString s => CString (localize s)
  | CObject fields =>
      if no_keys keys then v
      else CObject (localize_fields (default [] keys) fields)
  | other => other
  end.

Definition entry_errors (keys : option (list string))
    (e : string * ConfigValue) : list LocalizationError :=
  match e.2 with
  | CString _ => []
  | COther typeof => [NotStringOrObject typeof e.1]
  | _ => if no_keys keys then [NoLocalizationKeys] else []
  end.

Definition not_null (v : ConfigValue) : Prop := v <> CNull.

(** [_localizeObject(obj, keys)]: the error thrown if any, the object after
    the loop (its values are replaced in place) and the errors written to
    the console. *)
Definition _localizeObject (obj : JsObject ConfigValue)
    (keys : option (list string))
  : option JsError * JsObject ConfigValue * list LocalizationError :=
  localize_loop keys (Object_entries obj) obj [].

End Localization.

(** *** Indices *)

(** [String.prototype.split(separator)] for a separator of one character. *)
Fixpoint split (sep : ascii) (s : string) : list string :=
  match s with
  | EmptyString => [""]
  | String c s' =>
      if Ascii.eqb c sep then "" :: split sep s'
      else match split sep s' with
           | part :: parts => String c part :: parts
           | [] => [String c ""]
           end
  end.

(** No character of the string is a dot. *)
Definition dot_free (s : string) : bool :=
  RegExp.all_chars (fun c => negb (Ascii.eqb c "."%char)) s.

Section Indices.

(** The index entry of a document. *)
Variable Index : Type.
(** [game.packs]: the index of each pack, by the pack's key. *)
Variable packs : gmap string (gmap string Index).
(** [CONFIG[docName].collection.instance], by document name. *)
Variable collections : gmap string (gmap string Index).

(** [indexFromUuid(uuid)]; the [null] of the result is [None]. *)
Definition indexFromUuid (uuid : string) : Outcome (option Index) :=
  let parts := split "."%char uuid in
  (* Compendium Documents *)
  if bool_decide (parts !! 0%nat = Some "Compendium") then
    let scope := parts !! 1%nat in
    let packName := parts !! 2%nat in
    let id := parts !! 3%nat in
    let pack := packs !! (to_key scope +:+ "." +:+ to_key packName) in
    Return (pack ≫= (fun index => id ≫= (fun id => index !! id)))
  (* World Documents *)
  else if bool_decide (length parts < 3)%nat then
    let docName := to_key (parts !! 0%nat) in
    let id := parts !! 1%nat in
    match collections !! docName with
    | Some collection => Return (id ≫= (fun id => collection !! id))
    | None => Throw (TypeError "CONFIG[docName].collection")
    end
  else Return None.

End Indices.

(** *** Migration of the powers of an actor *)

(** The data of a power: what the migration moves, and the rest. *)
Record PowerSave := { ability : string; dc : option Z; scaling : string }.

Record PowerSystem := {
  description : string;
  power_level : Z;
  power_preparation : string;  (* system.preparation *)
  power_uses : string;         (* system.uses *)
  power_save : PowerSave       (* system.save *)
}.

Record PowerData := {
  _id : string;
  power_name : string;
  power_system : PowerSystem;
  sourceId : option string     (* flags.core.sourceId *)
}.

(** A power of the compendium pack: its data and its UUID. *)
Record PowerDocument := { toObject : PowerData; uuid : string }.




(** The map has a power of the name of [power]. *)
Definition in_pack (map : gmap string PowerDocument) (power : PowerData) : Prop :=
  map !! power_name power <> None.

#[global] Instance in_pack_dec map power : Decision (in_pack map power).
Proof. unfold in_pack. apply _. Defined.



End utilsHelpers.

(* ===================================================================== *)
(** ** Data models: migration of the source data of an item *)
(* ===================================================================== *)

Module ItemData.

(** A field of the source data. *)
Inductive JsVal (Num : Type) :=
| VUndefined
| VNull
| VBool (b : bool)
| VNumber (n : Num)
| VString (s : string).
Arguments VUndefined {Num}.
Arguments VNull {Num}.
Arguments VBool {Num} b.
Arguments VNumber {Num} n.
Arguments VString {Num} s.

Section Migrations.

Variable Num : Type.
Variable number_is_falsy : Num -> bool.          (* 0, -0 and NaN *)
Variable Number_isNumeric : JsVal Num -> bool.   (* Number.isNumeric(n) *)
Variable Number : JsVal Num -> Num.              (* Number(v) *)
Variable NONE ATTUNED : Num.                     (* CONFIG.SW5E.attunementTypes *)

(** [v === undefined], [v === null] and [v === s] for a string [s]. *)
Definition is_undefined (v : JsVal Num) : bool :=
  match v with
  | VUndefined => true
  | _ => false
  end.

Definition is_null (v : JsVal Num) : bool :=
  match v with
  | VNull => true
  | _ => false
  end.

Definition is_the_string (s : string) (v : JsVal Num) : bool :=
  match v with
  | VString s' => bool_decide (s' = s)
  | _ => false
  end.

Definition is_truthy (v : JsVal Num) : bool :=
  match v with
  | VUndefined | VNull => false
  | VBool b => b
  | VNumber n => negb (number_is_falsy n)
  | VString s => negb (bool_decide (s = ""))
  end.

(** **** EquippableItemTemplate *)

Record EquippableSource := {
  attuned : JsVal Num;
  attunement : JsVal Num;
  equipped : JsVal Num
}.

(** [static #migrateAttunement(source)] *)
Definition migrateAttunement (source : EquippableSource) : EquippableSource :=
  if is_undefined (attuned source) || negb (is_undefined (attunement source))
  then source
  else {| attuned := attuned source;
          attunement := VNumber (if is_truthy (attuned source) then ATTUNED else NONE);
          equipped := equipped source |}.

(** [static #migrateEquipped(source)] *)
Definition migrateEquipped (source : EquippableSource) : EquippableSource :=
  if is_null (equipped source) || is_undefined (equipped source)
  then {| attuned := attuned source; attunement := attunement source;
          equipped := VBool false |}
  else source.

(** [static migrateData(source)] of [EquippableItemTemplate] *)
Definition Equippable_migrateData (source : EquippableSource) : EquippableSource :=
  migrateEquipped (migrateAttunement source).

(** **** EquipmentData *)

(** [source.armor] with the fields the migration reads or writes. *)
Record Armor := {
  armor_type : JsVal Num;
  armor_value : JsVal Num;
  armor_dex : JsVal Num
}.

Record EquipmentSource := {
  armor : option Armor;   (* undefined or null: [None] *)
  strength : JsVal Num
}.

Definition is_string (v : JsVal Num) : bool :=
  match v with
  | VString _ => true
  | _ => false
  end.

(** [static #migrateArmor(source)] *)
Definition migrateArmor (source : EquipmentSource) : EquipmentSource :=
  let armor :=
    default {| armor_type := VUndefined; armor_value := VUndefined;
               armor_dex := VUndefined |} (armor source) in
  let type :=
    if is_the_string "bonus" (armor_type armor) then VString "trinket"
    else armor_type armor in
  let dex :=
    match armor_dex armor with
    | VString dex =>
        if bool_decide (dex = "") then VNull
        else if Number_isNumeric (VString dex) then VNumber (Number (VString dex))
        else VString dex
    | other => other
    end in
  {| armor := Some {| armor_type := type; armor_value := armor_value armor;
                      armor_dex := dex |};
     strength := strength source |}.

(** [static #migrateStrength(source)] *)
Definition migrateStrength (source : EquipmentSource) : EquipmentSource :=
  match strength source with
  | VString s =>
      let strength := if bool_decide (s = "") then VNull else VString s in
      {| armor := armor source;
         strength :=
           if Number_isNumeric strength then VNumber (Number strength)
           else strength |}
  | _ => source
  end.

(** The part of [EquipmentData.migrateData] that is the class's own: the
    migrations of the armor and of the strength, after those of the
    templates. *)
Definition Equipment_migrateOwn (source : EquipmentSource) : EquipmentSource :=
  migrateStrength (migrateArmor source).

End Migrations.

End ItemData.

(* ===================================================================== *)
(** * Sample data *)
(* ===================================================================== *)

Section ItemChoiceSamples.
Import ItemChoiceAdvancement.

(** An advancement that offers choices at levels 3, 1 and 10, configured in
    that order, with one choice already made at level 1. *)
Definition sample_choice_advancement : Advancement :=
  {| configuration :=
       {| choices := [("3", 1); ("1", 2); ("10", 1)];
          cfg_type := Some "power";
          restriction := Some {| r_type := None; r_subtype := None;
                                 r_level := Some "1" |} |};
     value := {| added := Some {[ "1" := {[ "a1b2" := "Compendium.sw5e.powers.x" ]} ]} |} |}.

(** A host configuration in the shape the system registers. *)
Definition sample_config : CONFIG :=
  {| typeLabels := {[ "class" := "ITEM.TypeClass"; "feat" := "ITEM.TypeFeat";
                      "power" := "ITEM.TypePower"; "weapon" := "ITEM.TypeWeapon" ]};
     featureTypes :=
       {[ "class" := {| label := "SW5E.ClassFeature";
                        subtypes := Some {[ "channelDivinity" := "SW5E.ClassFeature.ChannelDivinity" ]} |};
          "species" := {| label := "SW5E.SpeciesFeature"; subtypes := None |} ]};
     powerLevels := {[ 0 := "SW5E.PowerLevel0"; 1 := "SW5E.PowerLevel1";
                       2 := "SW5E.PowerLevel2" ]} |}.

Definition sample_VALID_TYPES : gset string :=
  {[ "feat"; "power"; "consumable"; "backpack"; "equipment"; "loot"; "tool"; "weapon" ]}.

Definition sample_super : Item5e -> bool -> Outcome bool :=
  ItemGrantAdvancement._validateItemType sample_VALID_TYPES.

Definition power_item (lvl : Z) : Item5e :=
  {| item_type := "power";
     system := {| sys_type := None; sys_level := Some lvl |} |}.

Definition feat_item (kind subtype : string) : Item5e :=
  {| item_type := "feat";
     system := {| sys_type := Some {| ft_value := kind; ft_subtype := subtype |};
                  sys_level := None |} |}.

Definition class_item : Item5e :=
  {| item_type := "class";
     system := {| sys_type := None; sys_level := None |} |}.

Definition non_strict : ValidateOptions :=
  {| o_type := None; o_restriction := None; o_strict := Some false |}.

Definition any_level : ValidateOptions :=
  {| o_type := None;
     o_restriction := Some {| r_type := None; r_subtype := None;
                              r_level := Some "available" |};
     o_strict := Some false |}.

(** Options that ask for a class feature of one subtype. *)
Definition class_feature_only : ValidateOptions :=
  {| o_type := Some "feat";
     o_restriction := Some {| r_type := Some "class";
                              r_subtype := Some "channelDivinity";
                              r_level := None |};
     o_strict := None |}.

End ItemChoiceSamples.

Section FlowSamples.
Import AdvancementFlow.

Definition empty_world : World :=
  {| actor := {| items := []; advancements := ∅ |}; log := [] |}.

Definition sample_item : Item :=
  {| item_id := "cls1"; advancement_byId := Some {[ "adv1" := "ItemChoice" ]} |}.

(** A flow whose step was reversed: the manager stored the retained data. *)
Definition reentered_flow : Flow :=
  {| item := sample_item; _advancementId := "adv1"; level := 3;
     retainedData := Some [("adv1.3", "Compendium.sw5e.powers.old")] |}.

Definition submitted : FormData := [("adv1.3", "Compendium.sw5e.powers.new")].

End FlowSamples.

Section SheetSamples.
Import ActorSheet5eCharacter.

(** A character with two classes, at total level 19. *)
Definition guardian : OwnedItem :=
  {| id := "c1"; name := "Guardian"; type := "class"; identifier := "guardian";
     classIdentifier := ""; levels := 12; archetype := None |}.
Definition scout : OwnedItem :=
  {| id := "c2"; name := "Scout"; type := "class"; identifier := "scout";
     classIdentifier := ""; levels := 7; archetype := None |}.
Definition sample_actor : Actor5e :=
  {| items := [guardian; scout]; advancements := ∅ |}.
Definition sample_world : World := {| actor := sample_actor; log := [] |}.

(** A manager with one step for each level the change crosses. *)
Definition one_step_per_level (a : Actor5e) (classId : string) (delta : Z)
  : AdvancementManager.Manager :=
  AdvancementManager.create a
    (replicate (Z.abs_nat delta)
       {| AdvancementManager.step_type :=
            if 0 <? delta then AdvancementManager.forward
            else AdvancementManager.reverse;
          AdvancementManager.step_advancement := "hp";
          AdvancementManager.step_level := 1;
          AdvancementManager.step_retained := None |}).

Definition level_down_by_two : ChangeEvent :=
  {| value := Some (-2); itemId := Some "c1" |}.

Definition dropped_guardian : ItemData :=
  {| d_type := "class"; d_levels := 3; d_identifier := "guardian";
     d_classIdentifier := "" |}.

Definition dropped_sentinel : ItemData :=
  {| d_type := "class"; d_levels := 3; d_identifier := "sentinel";
     d_classIdentifier := "" |}.

End SheetSamples.

Section ManagerSamples.
Import AdvancementManager.

(** The steps of a level-up with one choice to make. *)
Definition one_choice : list Step :=
  [ {| step_type := forward; step_advancement := "adv1"; step_level := 3;
       step_retained := None |} ].

End ManagerSamples.

Section RuntimeSamples.
Import utils.

(** A small runtime to run the function on: integers with NaN ([None]), a
    numeric string is a natural number in decimal, and the dice engine knows
    a few formulas. *)
Definition toy_Number (b : Bonus (option Z)) : option Z :=
  match b with
  | BNull => Some 0
  | BUndefined => None
  | BNumber x => x
  | BString s => if bool_decide (s = "") then Some 0
                 else Z.of_N <$> JS.array_index s
  end.

Definition toy_isNumeric (b : Bonus (option Z)) : bool :=
  match b with
  | BNull => false
  | BString "" => false
  | _ => bool_decide (toy_Number b <> None)
  end.

Definition toy_is_falsy (x : option Z) : bool :=
  bool_decide (x = None \/ x = Some 0).

Definition toy_new_Roll (b : Bonus (option Z)) (data : unit) : Outcome string :=
  match b with
  | BString "2 +" => Throw (HostError "Unexpected end of formula")
  | BString s => Return s
  | _ => Throw (HostError "not a formula")
  end.

Definition toy_isDeterministic (roll : string) : bool :=
  negb (bool_decide (roll = "1d4")).

Definition toy_safeEval (expression : string) : Outcome (option Z) :=
  if bool_decide (expression = "2 + 3") then Return (Some 5)
  else Throw (HostError "Roll.safeEval produced a non-numeric result").

Definition toy_simplifyBonus :=
  simplifyBonus (option Z) (Some 0) toy_is_falsy toy_isNumeric toy_Number unit
    string toy_new_Roll toy_isDeterministic (fun roll => roll) toy_safeEval.

End RuntimeSamples.

Section MoreSheetSamples.
Import ActorSheet5eCharacter.

Definition level_up_by_two : ChangeEvent :=
  {| value := Some 2; itemId := Some "c1" |}.

(** An archetype of the first class, owned by a second character. *)
Definition sentinel_path : OwnedItem :=
  {| id := "a1"; name := "Path of the Shield"; type := "archetype";
     identifier := "shield-path"; classIdentifier := "guardian"; levels := 0;
     archetype := None |}.

Definition guardian_with_path : OwnedItem :=
  {| id := "c1"; name := "Guardian"; type := "class"; identifier := "guardian";
     classIdentifier := ""; levels := 12; archetype := Some "Path of the Shield" |}.

Definition specialized_world : World :=
  {| actor := {| items := [guardian_with_path; sentinel_path; scout];
                 advancements := ∅ |};
     log := [] |}.

Definition dropped_shield_path : ItemData :=
  {| d_type := "archetype"; d_levels := 0; d_identifier := "shield-path";
     d_classIdentifier := "guardian" |}.

Definition dropped_blade : ItemData :=
  {| d_type := "weapon"; d_levels := 0; d_identifier := "";
     d_classIdentifier := "" |}.

End MoreSheetSamples.

Section UtilsSamples.
Import JS utilsHelpers.

(** A comparison of labels by length, for the examples. *)
Definition length_compare (a b : string) : Z :=
  Z.of_nat (String.length a) - Z.of_nat (String.length b).

Definition sample_abilities : JsObject ConfigValue :=
  [("str", CString "Strength"); ("dex", CString "Dexterity");
   ("con", CString "Stamina")].

Definition sample_by_level : JsObject ConfigValue :=
  [("2", CString "Adept"); ("1", CString "Initiate")].

(** A translation that marks what it translated. *)
Definition sample_localize (s : string) : string := "<" +:+ s +:+ ">".

Definition sample_table : JsObject ConfigValue :=
  [("acid", CString "SW5E.DamageAcid");
   ("fire", CObject [("label", "SW5E.DamageFire"); ("icon", "fire.svg")]);
   ("count", COther "number")].

Definition sample_table_with_null : JsObject ConfigValue :=
  [("acid", CString "SW5E.DamageAcid"); ("none", CNull)].

Definition sample_packs : gmap string (gmap string string) :=
  {[ "sw5e.forcepowers" := {[ "p1" := "Burst" ]} ]}.

Definition sample_collections : gmap string (gmap string string) :=
  {[ "Actor" := {[ "a1" := "Guardian" ]} ]}.

End UtilsSamples.

Section MigrationSamples.
Import ItemData.

(** Numbers as integers, for the examples: a string is numeric when it is a
    run of decimal digits. *)
Definition sample_isNumeric (v : JsVal Z) : bool :=
  match v with
  | VNumber _ => true
  | VString s => bool_decide (s <> "") && bool_decide (JS.parse_decimal s 0 <> None)
  | _ => false
  end.

Definition sample_Number (v : JsVal Z) : Z :=
  match v with
  | VNumber n => n
  | VString s => Z.of_N (default 0%N (JS.parse_decimal s 0))
  | VBool true => 1
  | _ => 0
  end.

Definition old_shield : EquipmentSource Z :=
  {| armor := Some {| armor_type := VString "bonus"; armor_value := VNumber 2;
                      armor_dex := VString "" |};
     strength := VString "13" |}.

End MigrationSamples.

Section GrantConfigSamples.

(** A resolution of UUIDs for the examples: a feature and a power exist. *)
Definition sample_fromUuidSync (uuid : string) : option Item5e :=
  if bool_decide (uuid = "Item.feat") then Some (feat_item "class" "")
  else if bool_decide (uuid = "Item.power") then Some (power_item 1)
  else None.

End GrantConfigSamples.

(* ===================================================================== *)
(** * Properties *)
(* ===================================================================== *)

(** ** Enumeration of the keys of an object *)

Section ObjectKeys.
Import JS.

Example parseInt_samples :
  parseInt (Some "3") = Some 3
  /\ parseInt (Some " -12abc") = Some (-12)
  /\ parseInt (Some "0x1f") = Some 31
  /\ parseInt (Some "available") = None
  /\ parseInt (Some "") = None
  /\ parseInt None = None.
Proof. repeat split; reflexivity. Qed.

Example array_index_samples :
  array_index "10" = Some 10%N
  /\ array_index "0" = Some 0%N
  /\ array_index "01" = None
  /\ array_index "4294967295" = None
  /\ array_index "level" = None.
Proof. repeat split; reflexivity. Qed.

(** Array indices first, in numeric order, then the other keys as created. *)
Example Object_keys_sample :
  Object_keys [("b", 1); ("10", 2); ("2", 3); ("a", 4); ("1", 5)]
  = ["1"; "2"; "10"; "b"; "a"].
Proof. reflexivity. Qed.

(** An array index is the decimal form of its number. *)
Lemma array_index_pretty k n : array_index k = Some n -> k = pretty n.
Proof.
  unfold array_index. destruct k as [|c k']; [done|].
  destruct (parse_decimal _ _) as [m|]; [|done].
  case_bool_decide as Hp; simpl; [|done].
  destruct (m <? 4294967295)%N; [|done].
  intros [= <-]. by rewrite Hp.
Qed.

Lemma indexed_keys_snd ks : (indexed_keys ks).*2 = filter is_index ks.
Proof.
  induction ks as [|k ks IH]; [done|].
  unfold indexed_keys in *. cbn [omap list_omap].
  rewrite filter_cons.
  destruct (array_index k) as [n|] eqn:E.
  - rewrite decide_True by (unfold is_index; by rewrite E). by rewrite <- IH.
  - rewrite decide_False by (unfold is_index; rewrite E; tauto). by rewrite <- IH.
Qed.

Lemma indexed_keys_canonical ks :
  Forall (fun p => p.2 = pretty p.1) (indexed_keys ks).
Proof.
  induction ks as [|k ks IH]; [constructor|].
  unfold indexed_keys in *. cbn [omap list_omap].
  destruct (array_index k) as [n|] eqn:E; simpl; [|done].
  constructor; [|done]. simpl. by apply array_index_pretty.
Qed.

#[local] Instance index_le_trans : Transitive index_le.
Proof. intros a b c. unfold index_le. lia. Qed.

#[local] Instance index_le_total : Total index_le.
Proof. intros a b. unfold index_le. lia. Qed.

(** [Object.keys] enumerates every key exactly once. *)
Lemma Object_keys_Permutation {A} (o : JsObject A) : Object_keys o ≡ₚ o.*1.
Proof.
  unfold Object_keys, named_keys.
  rewrite (merge_sort_Permutation index_le), indexed_keys_snd.
  apply filter_app_complement.
Qed.

Lemma StronglySorted_le_lt (ns : list N) :
  StronglySorted N.le ns -> NoDup ns -> StronglySorted N.lt ns.
Proof.
  induction 1 as [|n ns Hs IH Hall]; intros Hnd; [constructor|].
  apply NoDup_cons in Hnd as [Hn Hnd].
  constructor; [by apply IH|].
  rewrite Forall_forall in Hall |- *. intros m Hm.
  assert (n <> m) by (intros ->; by apply Hn, list_elem_of_In).
  specialize (Hall m Hm). lia.
Qed.

(** When every key is an array index, the keys come out in strictly
    ascending numeric order. *)
Lemma Object_keys_ascending {A} (o : JsObject A) :
  well_formed o ->
  Forall is_index o.*1 ->
  exists ns : list N, Object_keys o = pretty <$> ns /\ StronglySorted N.lt ns.
Proof.
  intros Hwf Hidx.
  set (sorted := merge_sort index_le (indexed_keys o.*1)).
  assert (Hnamed : named_keys o.*1 = []).
  { unfold named_keys. induction Hidx as [|k ks Hk _ IH]; [done|].
    rewrite filter_cons, decide_False by tauto. done. }
  assert (Hcanon : Forall (fun p => p.2 = pretty p.1) sorted).
  { unfold sorted. rewrite (merge_sort_Permutation index_le).
    apply indexed_keys_canonical. }
  assert (Hsnd : sorted.*2 = pretty <$> sorted.*1).
  { clear -Hcanon. induction Hcanon as [|p ps Hp _ IH]; [done|].
    cbn. by rewrite Hp, IH. }
  exists sorted.*1. split.
  - unfold Object_keys. fold sorted. by rewrite Hnamed, app_nil_r.
  - apply StronglySorted_le_lt.
    + apply (StronglySorted_fmap fst index_le); [done|].
      apply (StronglySorted_merge_sort index_le).
    + apply (NoDup_fmap_1 pretty). rewrite <- Hsnd.
      pose proof (Object_keys_Permutation o) as Hp.
      unfold Object_keys in Hp. fold sorted in Hp.
      rewrite Hnamed, app_nil_r in Hp. by rewrite Hp.
Qed.

End ObjectKeys.

(** ** ItemChoiceAdvancement: levels and configured levels *)

Section ItemChoiceLevels.
Import JS ItemChoiceAdvancement.

Example sample_levels : levels sample_choice_advancement = ["1"; "3"; "10"].
Proof. reflexivity. Qed.

Example sample_configured :
  configuredForLevel sample_choice_advancement 1 = true
  /\ configuredForLevel sample_choice_advancement 3 = false.
Proof. split; reflexivity. Qed.

(** C7: the levels of an ItemChoice advancement are exactly the keys of
    [configuration.choices]; when these keys are levels (array indices), the
    sequence has no duplicates and is strictly ascending in numeric order. *)
Theorem levels_unique_ascending (this : Advancement) :
  well_formed (choices (configuration this)) ->
  Forall is_index (choices (configuration this)).*1 ->
  (forall k, k ∈ levels this <-> k ∈ (choices (configuration this)).*1)
  /\ NoDup (levels this)
  /\ exists ns : list N, levels this = pretty <$> ns /\ StronglySorted N.lt ns.
Proof.
  intros Hwf Hidx. unfold levels.
  pose proof (Object_keys_Permutation (choices (configuration this))) as Hp.
  split; [|split].
  - intros k. by rewrite Hp.
  - by rewrite Hp.
  - by apply Object_keys_ascending.
Qed.

Lemma levels_unique_ascending_witness :
  levels sample_choice_advancement = ["1"; "3"; "10"]
  /\ ((forall k, k ∈ levels sample_choice_advancement
                 <-> k ∈ (choices (configuration sample_choice_advancement)).*1)
      /\ NoDup (levels sample_choice_advancement)
      /\ exists ns : list N, levels sample_choice_advancement = pretty <$> ns
                             /\ StronglySorted N.lt ns).
Proof.
  split; [reflexivity|].
  apply levels_unique_ascending.
  - unfold well_formed. apply (bool_decide_unpack _). vm_compute. exact I.
  - apply (bool_decide_unpack _). vm_compute. exact I.
Defined.

(** C6: [configuredForLevel(level)] is true exactly when [value.added] has an
    entry for the level. *)
Theorem configuredForLevel_iff_added (this : Advancement) (level : N) :
  configuredForLevel this level = true
  <-> exists a entry,
        added (value this) = Some a /\ a !! pretty level = Some entry.
Proof.
  unfold configuredForLevel. destruct (added (value this)) as [a|].
  - rewrite bool_decide_eq_true. split.
    + intros H. destruct (a !! pretty level) as [e|] eqn:E; [|done].
      by exists a, e.
    + intros (a' & e & [= <-] & ->). done.
  - split; [done|]. by intros (a & e & [=] & _).
Qed.

(** Without [value.added] no level is configured. *)
Lemma configuredForLevel_no_added (this : Advancement) (level : N) :
  added (value this) = None -> configuredForLevel this level = false.
Proof. unfold configuredForLevel. by intros ->. Qed.

End ItemChoiceLevels.

(** ** ItemChoiceAdvancement: validation of an item *)

Section ItemChoiceValidation.
Import JS ItemChoiceAdvancement.

Variable config : CONFIG.
Variable super_validateItemType : Item5e -> bool -> Outcome bool.

Abbreviation validate := (_validateItemType config super_validateItemType).

Lemma reject_not_true strict key data : reject strict key data <> Return true.
Proof. unfold reject. by destruct strict. Qed.

Lemma reject_non_strict key data : reject false key data = Return false.
Proof. done. Qed.

Lemma reject_strict key data :
  reject true key data = Throw (Error {| msg_key := key; msg_data := data |}).
Proof. done. Qed.

(** The outcome when the configured type differs from the item's type: the
    label of the message is read from [CONFIG.Item.typeLabels] under the key
    of the restriction object, whatever the two types are. *)
Lemma validate_type_mismatch this item opts t b :
  super_validateItemType item (default true (o_strict opts)) = Return b ->
  nullish_or (o_type opts) (cfg_type (configuration this)) = Some t ->
  t <> "" -> t <> item_type item ->
  validate this item opts
  = reject (default true (o_strict opts)) "SW5E.AdvancementItemChoiceTypeWarning"
      [("type", Localized (typeLabels config !! restriction_key
         (nullish_or (o_restriction opts) (restriction (configuration this)))))].
Proof.
  intros Hsuper Ht Hne Hdiff. unfold _validateItemType.
  rewrite Hsuper, Ht. cbn [obind truthy].
  rewrite (bool_decide_eq_false_2 (t = "")) by done.
  rewrite (bool_decide_eq_false_2 (Some t = Some (item_type item))) by congruence.
  done.
Qed.

(** The outcome for a power when the type matches: only the level block is
    left to decide. *)
Lemma validate_power this item opts r b :
  super_validateItemType item (default true (o_strict opts)) = Return b ->
  nullish_or (o_type opts) (cfg_type (configuration this)) = Some "power" ->
  nullish_or (o_restriction opts) (restriction (configuration this)) = Some r ->
  item_type item = "power" ->
  validate this item opts
  = power_level_check config (Some "power") r item (default true (o_strict opts)).
Proof.
  intros Hsuper Ht Hr Hitem. unfold _validateItemType.
  rewrite Hsuper, Ht, Hr, Hitem. reflexivity.
Qed.

(** A power passes only with the type of a power. *)
Lemma validate_power_true_type this item opts :
  nullish_or (o_type opts) (cfg_type (configuration this)) = Some "power" ->
  validate this item opts = Return true ->
  item_type item = "power".
Proof.
  intros Ht. unfold _validateItemType. rewrite Ht.
  destruct (super_validateItemType _ _) as [b|e]; [|done]. cbn [obind truthy].
  rewrite (bool_decide_eq_false_2 ("power" = "")) by done. cbn [negb andb].
  case_bool_decide as Hty.
  - intros _. by injection Hty.
  - intros H. by apply reject_not_true in H.
Qed.

(** C4: with the type "power", a numeric [restriction.level] lets an item
    pass only when its level is that number; a non-numeric one restricts no
    level, so a power passes whatever its level is. *)
Theorem power_level_restriction this item opts r :
  nullish_or (o_type opts) (cfg_type (configuration this)) = Some "power" ->
  nullish_or (o_restriction opts) (restriction (configuration this)) = Some r ->
  (forall l, parseInt (r_level r) = Some l ->
     validate this item opts = Return true ->
     sys_level (system item) = Some l)
  /\ (forall l b, parseInt (r_level r) = Some l ->
        super_validateItemType item (default true (o_strict opts)) = Return b ->
        item_type item = "power" ->
        sys_level (system item) = Some l ->
        validate this item opts = Return true)
  /\ (forall b, parseInt (r_level r) = None ->
        super_validateItemType item (default true (o_strict opts)) = Return b ->
        item_type item = "power" ->
        validate this item opts = Return true).
Proof.
  intros Ht Hr. split; [|split].
  - intros l Hl Hok.
    pose proof (validate_power_true_type _ _ _ Ht Hok) as Hitem.
    destruct (super_validateItemType item (default true (o_strict opts)))
      as [b|e] eqn:Hsuper.
    + rewrite (validate_power _ _ _ _ _ Hsuper Ht Hr Hitem) in Hok.
      unfold power_level_check in Hok. rewrite Hl in Hok.
      rewrite bool_decide_eq_true_2 in Hok by done. cbn [andb] in Hok.
      case_bool_decide as Hlvl; [done|].
      by apply reject_not_true in Hok.
    + unfold _validateItemType in Hok. by rewrite Hsuper in Hok.
  - intros l b Hl Hsuper Hitem Hlvl.
    rewrite (validate_power _ _ _ _ _ Hsuper Ht Hr Hitem).
    unfold power_level_check. rewrite Hl, Hlvl.
    rewrite (bool_decide_eq_true_2 (Some l = Some l)) by done.
    by rewrite andb_false_r.
  - intros b Hl Hsuper Hitem.
    rewrite (validate_power _ _ _ _ _ Hsuper Ht Hr Hitem).
    unfold power_level_check. by rewrite Hl.
Qed.

(** Without [strict] no validation message is thrown: what can still be
    raised is the failure of a property read on a missing table entry. *)
Lemma validate_non_strict_no_Error this item opts m :
  o_strict opts = Some false ->
  super_validateItemType item false <> Throw (Error m) ->
  validate this item opts <> Throw (Error m).
Proof.
  intros Hs Hsuper. unfold _validateItemType, power_level_check, feature_errorLabel.
  rewrite Hs. change (default true (Some false)) with false.
  destruct (super_validateItemType item false) as [b|e]; cbn [obind]; [|done].
  repeat (case_match; cbn [obind reject]; try done).
Qed.

End ItemChoiceValidation.

Section ItemChoiceValidationExamples.
Import JS ItemChoiceAdvancement.

Lemma power_level_restriction_witness :
  (nullish_or (o_type no_options)
     (cfg_type (configuration sample_choice_advancement)) = Some "power"
   /\ nullish_or (o_restriction no_options)
        (restriction (configuration sample_choice_advancement))
      = Some {| r_type := None; r_subtype := None; r_level := Some "1" |})
  /\ ((forall l, parseInt (Some "1") = Some l ->
         _validateItemType sample_config sample_super sample_choice_advancement
           (power_item 1) no_options = Return true ->
         sys_level (system (power_item 1)) = Some l)
      /\ (forall l b, parseInt (Some "1") = Some l ->
            sample_super (power_item 1) (default true (o_strict no_options)) = Return b ->
            item_type (power_item 1) = "power" ->
            sys_level (system (power_item 1)) = Some l ->
            _validateItemType sample_config sample_super sample_choice_advancement
              (power_item 1) no_options = Return true)
      /\ (forall b, parseInt (Some "1") = None ->
            sample_super (power_item 1) (default true (o_strict no_options)) = Return b ->
            item_type (power_item 1) = "power" ->
            _validateItemType sample_config sample_super sample_choice_advancement
              (power_item 1) no_options = Return true)).
Proof.
  split; [split; reflexivity|].
  apply (power_level_restriction sample_config sample_super
           sample_choice_advancement (power_item 1) no_options
           {| r_type := None; r_subtype := None; r_level := Some "1" |});
    reflexivity.
Defined.

Example power_of_the_level_passes :
  _validateItemType sample_config sample_super sample_choice_advancement
    (power_item 1) no_options = Return true.
Proof. reflexivity. Qed.

Example power_of_another_level_fails :
  _validateItemType sample_config sample_super sample_choice_advancement
    (power_item 2) non_strict = Return false
  /\ _validateItemType sample_config sample_super sample_choice_advancement
       (power_item 2) no_options
     = Throw (Error {| msg_key := "SW5E.AdvancementItemChoicePowerLevelSpecificWarning";
                       msg_data := [("level", Plain (Some "SW5E.PowerLevel1"))] |}).
Proof. split; reflexivity. Qed.

Example power_of_any_level_passes :
  _validateItemType sample_config sample_super sample_choice_advancement
    (power_item 2) any_level = Return true
  /\ _validateItemType sample_config sample_super sample_choice_advancement
       (power_item 7) any_level = Return true.
Proof. split; reflexivity. Qed.

(** C3: with [strict], a feature offered where a power is required is
    refused with the type warning, and the label of the warning is
    [localize(CONFIG.Item.typeLabels[restriction])]: the table is read under
    the key of the restriction object, where it has no entry, and not under
    the required type "power" (nor under the item's type "feat"). *)
Theorem type_mismatch_label_is_not_the_type :
  _validateItemType sample_config sample_super sample_choice_advancement
    (feat_item "class" "") no_options
  = Throw (Error {| msg_key := "SW5E.AdvancementItemChoiceTypeWarning";
                    msg_data := [("type", Localized None)] |})
  /\ typeLabels sample_config !! "power" = Some "ITEM.TypePower"
  /\ typeLabels sample_config !! "feat" = Some "ITEM.TypeFeat"
  /\ typeLabels sample_config !! restriction_key
       (restriction (configuration sample_choice_advancement)) = None.
Proof. repeat split; reflexivity. Qed.

Example feature_type_mismatch_names_the_type :
  _validateItemType sample_config sample_super sample_choice_advancement
    (feat_item "species" "") class_feature_only
  = Throw (Error {| msg_key := "SW5E.AdvancementItemChoiceTypeWarning";
                    msg_data := [("type", Plain (Some "SW5E.ClassFeature"))] |}).
Proof. reflexivity. Qed.

Example feature_subtype_mismatch_names_the_subtype :
  _validateItemType sample_config sample_super sample_choice_advancement
    (feat_item "class" "rage") class_feature_only
  = Throw (Error {| msg_key := "SW5E.AdvancementItemChoiceTypeWarning";
                    msg_data := [("type", Plain (Some "SW5E.ClassFeature.ChannelDivinity"))] |})
  /\ _validateItemType sample_config sample_super sample_choice_advancement
       (feat_item "class" "channelDivinity") class_feature_only = Return true.
Proof. split; reflexivity. Qed.

(** A feature type without an entry in [CONFIG.SW5E.featureTypes] makes the
    read of [typeConfig.subtypes] fail, with or without [strict]. *)
Example unknown_feature_type_raises :
  _validateItemType sample_config sample_super sample_choice_advancement
    (feat_item "class" "")
    {| o_type := Some "feat";
       o_restriction := Some {| r_type := Some "monster"; r_subtype := None;
                                r_level := None |};
       o_strict := Some false |}
  = Throw (TypeError "typeConfig.subtypes").
Proof. reflexivity. Qed.

(** The boolean of the inherited check is not used: without [strict] an item
    whose type the parent class refuses passes when no type is configured. *)
Example inherited_result_is_dropped :
  sample_super class_item false = Return false
  /\ _validateItemType sample_config sample_super
       {| configuration := {| choices := []; cfg_type := None;
            restriction := Some {| r_type := None; r_subtype := None;
                                   r_level := None |} |};
          value := {| added := None |} |}
       class_item non_strict
     = Return true.
Proof. split; reflexivity. Qed.

End ItemChoiceValidationExamples.

(** ** ItemGrantConfig: items dropped on the configuration sheet *)

Section DroppedItems.
Import ItemGrantConfig.

(** C8: a dropped item whose type is one of [VALID_TYPES] is accepted with
    [true]; any other item raises the type warning, whose label is the
    localised name of the item's own type; [false] is never returned. *)
Theorem validateDroppedItem_accepts_or_throws (VALID_TYPES : gset string)
    (item : Item5e) :
  (item_type item ∈ VALID_TYPES ->
     _validateDroppedItem VALID_TYPES item = Return true)
  /\ (item_type item ∉ VALID_TYPES ->
        _validateDroppedItem VALID_TYPES item = Throw (invalid_type_warning item))
  /\ _validateDroppedItem VALID_TYPES item <> Return false.
Proof.
  unfold _validateDroppedItem, invalid_type_warning.
  case_bool_decide as Hin; repeat split; try done.
Qed.

Lemma validateDroppedItem_accepts_or_throws_witness :
  _validateDroppedItem sample_VALID_TYPES (power_item 1) = Return true
  /\ _validateDroppedItem sample_VALID_TYPES class_item
     = Throw (invalid_type_warning class_item).
Proof.
  split.
  - apply (proj1 (validateDroppedItem_accepts_or_throws sample_VALID_TYPES
                    (power_item 1))).
    apply (bool_decide_unpack _). vm_compute. exact I.
  - apply (proj1 (proj2 (validateDroppedItem_accepts_or_throws
                           sample_VALID_TYPES class_item))).
    apply (bool_decide_unpack _). vm_compute. exact I.
Defined.

Example dropped_power_accepted :
  _validateDroppedItem sample_VALID_TYPES (power_item 1) = Return true.
Proof. reflexivity. Qed.

Example dropped_class_refused :
  _validateDroppedItem sample_VALID_TYPES class_item
  = Throw (Error {| msg_key := "SW5E.AdvancementItemTypeInvalidWarning";
                    msg_data := [("type", Localized (Some "ITEM.TypeClass"))] |}).
Proof. reflexivity. Qed.

End DroppedItems.

(** ** AdvancementFlow: submission of the form *)

Section FlowSubmission.
Import AdvancementFlow.

(** C5, as stated, fails: a flow that holds retained data still calls
    [apply] with the submitted form, where the statement asks for [restore]
    with the retained data. *)
Lemma reentered_flow_still_applies :
  retainedData reentered_flow
    = Some [("adv1.3", "Compendium.sw5e.powers.old")]
  /\ _updateObject recording_apply reentered_flow submitted empty_world
     = (Return tt,
        {| actor := actor empty_world;
           log := [AdvancementApply "adv1" 3 submitted] |})
  /\ _updateObject_as_specified recording_apply recording_restore
       reentered_flow submitted empty_world
     = (Return tt,
        {| actor := actor empty_world;
           log := [AdvancementRestore "adv1" 3
                     [("adv1.3", "Compendium.sw5e.powers.old")]] |})
  /\ _updateObject recording_apply reentered_flow submitted empty_world
     <> _updateObject_as_specified recording_apply recording_restore
          reentered_flow submitted empty_world.
Proof. repeat split; try reflexivity. discriminate. Qed.

(** C5, amended: a submission is exactly one call of the advancement's
    [apply] for the flow's level with the form unchanged, whether or not the
    flow holds retained data; the flow does nothing else to the world. *)
Theorem updateObject_forwards_to_apply
    (apply : string -> N -> FormData -> M unit)
    (this : Flow) (formData : FormData) (adv : string) :
  advancement this = Some adv ->
  _updateObject apply this formData = apply adv (level this) formData
  /\ (forall data,
        _updateObject apply (with_retainedData data this) formData
        = _updateObject apply this formData)
  /\ (forall w,
        _updateObject recording_apply this formData w
        = (Return tt,
           {| actor := actor w;
              log := log w ++ [AdvancementApply adv (level this) formData] |})).
Proof.
  intros Hadv. split; [|split].
  - unfold _updateObject. by rewrite Hadv.
  - intros data. reflexivity.
  - intros w. unfold _updateObject. by rewrite Hadv.
Qed.

Lemma updateObject_forwards_to_apply_witness :
  advancement reentered_flow = Some "adv1"
  /\ (_updateObject recording_apply reentered_flow submitted
      = recording_apply "adv1" (level reentered_flow) submitted
      /\ (forall data,
            _updateObject recording_apply (with_retainedData data reentered_flow) submitted
            = _updateObject recording_apply reentered_flow submitted)
      /\ (forall w,
            _updateObject recording_apply reentered_flow submitted w
            = (Return tt,
               {| actor := actor w;
                  log := log w ++ [AdvancementApply "adv1" (level reentered_flow) submitted] |}))).
Proof.
  split; [reflexivity|].
  apply (updateObject_forwards_to_apply recording_apply reentered_flow submitted "adv1").
  reflexivity.
Defined.

(** A flow whose advancement is gone from the item fails on the call. *)
Lemma updateObject_without_advancement
    (apply : string -> N -> FormData -> M unit) this formData w :
  advancement this = None ->
  _updateObject apply this formData w = (Throw (TypeError "this.advancement.apply"), w).
Proof. intros H. unfold _updateObject. by rewrite H. Qed.

End FlowSubmission.

(** ** ActorSheet5eCharacter: changing the level of a class *)

Section LevelChange.
Import ActorSheet5eCharacter.

Variable forLevelChange : Actor5e -> string -> Z -> AdvancementManager.Manager.

Lemma find_pos_Some {A} (p : A -> bool) (l : list A) i :
  find_pos p l = Some i -> exists x, l !! i = Some x /\ p x = true.
Proof.
  revert i. induction l as [|y l IH]; intros i; [done|]. cbn [find_pos].
  destruct (p y) eqn:Hp.
  - intros [= <-]. by exists y.
  - destruct (find_pos p l) as [j|]; [|done]. intros [= <-].
    destruct (IH j eq_refl) as (x & Hx & Hpx). by exists x.
Qed.

(** The run of the handler on a level decrease whose manager has steps, for
    each of the three things the user can do with the dialog. *)
Lemma level_down_run (response : DialogResponse) (event : ChangeEvent)
    (delta : Z) (classId : string) (w : World) :
  value event = Some delta ->
  itemId event = Some classId ->
  delta < 0 ->
  classId <> "" ->
  has_steps (forLevelChange (actor w) classId delta) = true ->
  let asked := {| actor := actor w;
                  log := log w ++ [PreventDefault; ConfirmLevelDown classId] |} in
  _onLevelChange false forLevelChange response event w
  = match response with
    | Reject => (Return Undefined, asked)
    | Resolve true =>
        (Return Rendered,
         {| actor := actor w;
            log := log w ++ [PreventDefault; ConfirmLevelDown classId;
                             RenderManager classId delta] |})
    | Resolve false =>
        bind (update_class (actor w)
                (find_pos (fun i => bool_decide (id i = classId)) (items (actor w)))
                delta)
             (fun _ => ret Updated) asked
    end.
Proof.
  intros Hv Hid Hneg Hcls Hsteps asked. subst asked.
  unfold _onLevelChange. rewrite Hv, Hid.
  assert ((delta =? 0) = false) as -> by lia.
  rewrite (bool_decide_eq_false_2 (classId = "")) by done.
  assert ((0 <? delta) = false) as -> by lia.
  unfold bind at 1. unfold emit at 1. cbn [orb negb].
  unfold bind at 1. unfold get_actor at 1. cbn [actor]. rewrite Hsteps.
  destruct response as [[]|];
    cbv [bind catch forLevelDown emit render ret throw]; cbn [actor log];
    rewrite <- ?app_assoc; reflexivity.
Qed.

(** C1: for a level decrease whose manager has steps, the first thing the
    handler asks of the host after taking the event is the confirmation
    prompt, so that nothing (and in particular no manager that would run the
    reverse steps) comes before it; when the user declines (the dialog's
    promise rejects) the handler returns with the actor as it was, no update
    of the class and no manager rendered. *)
Theorem level_down_asks_first_and_decline_is_a_no_op
    (response : DialogResponse) (event : ChangeEvent)
    (delta : Z) (classId : string) (w : World) :
  value event = Some delta ->
  itemId event = Some classId ->
  delta < 0 ->
  classId <> "" ->
  has_steps (forLevelChange (actor w) classId delta) = true ->
  (exists rest,
     log (_onLevelChange false forLevelChange response event w).2
     = log w ++ PreventDefault :: ConfirmLevelDown classId :: rest)
  /\ (response = Reject ->
        _onLevelChange false forLevelChange response event w
        = (Return Undefined,
           {| actor := actor w;
              log := log w ++ [PreventDefault; ConfirmLevelDown classId] |})).
Proof.
  intros Hv Hid Hneg Hcls Hsteps.
  rewrite (level_down_run response event delta classId w) by done.
  split; [|by intros ->].
  destruct response as [[]|]; cbn [snd log].
  - by eexists.
  - unfold update_class, bind.
    destruct (find_pos _ _) as [pos|]; [|by exists []].
    destruct (items (actor w) !! pos) as [c|] eqn:Hc; [|by exists []].
    unfold update_levels, bind, get_actor, emit, put_actor, ret.
    cbn [actor log]. rewrite Hc. cbn [snd log].
    eexists. rewrite <- app_assoc. reflexivity.
  - by exists [].
Qed.

(** Confirming without removing the advancements changes the level of the
    class and renders no manager. *)
Lemma level_down_keeping_advancements (event : ChangeEvent)
    (delta : Z) (classId : string) (w : World) pos c :
  value event = Some delta ->
  itemId event = Some classId ->
  delta < 0 ->
  classId <> "" ->
  has_steps (forLevelChange (actor w) classId delta) = true ->
  find_pos (fun i => bool_decide (id i = classId)) (items (actor w)) = Some pos ->
  items (actor w) !! pos = Some c ->
  _onLevelChange false forLevelChange (Resolve false) event w
  = (Return Updated,
     {| actor := {| items := <[pos := set_levels (levels c + delta) c]> (items (actor w));
                    advancements := advancements (actor w) |};
        log := log w ++ [PreventDefault; ConfirmLevelDown classId;
                         DocumentUpdate (id c) (levels c + delta)] |}).
Proof.
  intros Hv Hid Hneg Hcls Hsteps Hpos Hc.
  rewrite (level_down_run (Resolve false) event delta classId w) by done.
  rewrite Hpos. unfold update_class. rewrite Hc.
  unfold update_levels, bind, get_actor, emit, put_actor, ret.
  cbn [actor log]. rewrite Hc. cbn [actor log].
  by rewrite <- app_assoc.
Qed.

End LevelChange.

Section LevelChangeExamples.
Import ActorSheet5eCharacter.

Lemma level_down_asks_first_and_decline_is_a_no_op_witness :
  (exists rest,
     log (_onLevelChange false one_step_per_level Reject level_down_by_two
            sample_world).2
     = log sample_world ++ PreventDefault :: ConfirmLevelDown "c1" :: rest)
  /\ (Reject = Reject ->
        _onLevelChange false one_step_per_level Reject level_down_by_two
          sample_world
        = (Return Undefined,
           {| actor := actor sample_world;
              log := log sample_world ++ [PreventDefault; ConfirmLevelDown "c1"] |})).
Proof.
  apply (level_down_asks_first_and_decline_is_a_no_op one_step_per_level
           Reject level_down_by_two (-2) "c1" sample_world).
  - reflexivity.
  - reflexivity.
  - lia.
  - discriminate.
  - reflexivity.
Defined.

Example level_down_declined :
  _onLevelChange false one_step_per_level Reject level_down_by_two sample_world
  = (Return Undefined,
     {| actor := sample_actor; log := [PreventDefault; ConfirmLevelDown "c1"] |}).
Proof. reflexivity. Qed.

Example level_down_confirmed :
  _onLevelChange false one_step_per_level (Resolve true) level_down_by_two
    sample_world
  = (Return Rendered,
     {| actor := sample_actor;
        log := [PreventDefault; ConfirmLevelDown "c1"; RenderManager "c1" (-2)] |}).
Proof. reflexivity. Qed.

Example level_down_keeping_the_advancements :
  _onLevelChange false one_step_per_level (Resolve false) level_down_by_two
    sample_world
  = (Return Updated,
     {| actor := {| items := [set_levels 10 guardian; scout]; advancements := ∅ |};
        log := [PreventDefault; ConfirmLevelDown "c1"; DocumentUpdate "c1" 10] |}).
Proof. reflexivity. Qed.

Example level_up_renders_without_asking :
  _onLevelChange false one_step_per_level Reject
    {| value := Some 1; itemId := Some "c1" |} sample_world
  = (Return Rendered,
     {| actor := sample_actor; log := [PreventDefault; RenderManager "c1" 1] |}).
Proof. reflexivity. Qed.

End LevelChangeExamples.

(** ** ActorSheet5eCharacter: dropping a class *)

Section ClassDrop.
Import ActorSheet5eCharacter.

Variable maxLevel : Z.
Variable disableAdvancements : bool.
Variable forLevelChange : Actor5e -> string -> Z -> AdvancementManager.Manager.

Lemma total_level_insert (l : list OwnedItem) pos c n :
  l !! pos = Some c ->
  type c = "class" ->
  foldr (fun i acc => class_levels i + acc) 0 (<[pos := set_levels n c]> l)
  = foldr (fun i acc => class_levels i + acc) 0 l - levels c + n.
Proof.
  intros Hc Hty. revert pos Hc.
  induction l as [|x l IH]; intros pos Hc; [done|].
  destruct pos as [|pos].
  - injection Hc as ->.
    change (<[0%nat := set_levels n c]> (c :: l)) with (set_levels n c :: l).
    cbn [foldr]. unfold class_levels. cbn [type levels set_levels].
    rewrite Hty. rewrite bool_decide_eq_true_2 by done. lia.
  - change (<[S pos := set_levels n c]> (x :: l))
      with (x :: <[pos := set_levels n c]> l).
    cbn [foldr]. rewrite (IH pos Hc). lia.
Qed.

Lemma details_level_update (a : Actor5e) pos c n :
  items a !! pos = Some c ->
  type c = "class" ->
  details_level {| items := <[pos := set_levels n c]> (items a);
                   advancements := advancements a |}
  = details_level a - levels c + n.
Proof. intros. unfold details_level. cbn [items]. by apply total_level_insert. Qed.

Lemma class_drop_run (itemData : ItemData) (w : World) :
  d_type itemData = "class" ->
  let granted := Z.min (d_levels itemData) (maxLevel - details_level (actor w)) in
  let run := _onDropSingleItem maxLevel disableAdvancements forLevelChange itemData w in
  (granted <= 0 ->
     run = (Return DropFalse,
            {| actor := actor w; log := log w ++ [max_level_warning maxLevel] |}))
  /\ (0 < granted -> drop_outcome granted itemData w run).
Proof.
  intros Hty granted run. subst run.
  split; intros Hg;
    unfold _onDropSingleItem; unfold bind at 1; unfold get_actor at 1;
    rewrite (bool_decide_eq_true_2 _ Hty);
    cbn [d_levels with_levels d_identifier]; fold granted.
  - destruct (Z.leb_spec granted 0); [reflexivity|lia].
  - destruct (Z.leb_spec granted 0); [lia|].
    destruct (find_pos (is_class_with (d_identifier itemData)) (items (actor w)))
      as [pos|] eqn:Hpos; cbn [mbind option_bind]; [|by left].
    destruct (find_pos_Some _ _ _ Hpos) as (c & Hc & Hp).
    rewrite Hc. cbn [fmap option_fmap option_map].
    apply andb_true_iff in Hp as [Hclass _].
    apply bool_decide_eq_true in Hclass.
    assert (update_levels pos (levels c + granted) w
            = (Return tt,
               {| actor := {| items := <[pos := set_levels (levels c + granted) c]>
                                         (items (actor w));
                              advancements := advancements (actor w) |};
                  log := log w ++ [DocumentUpdate (id c) (levels c + granted)] |}))
      as Hupd.
    { unfold update_levels, bind, get_actor, emit, put_actor. by rewrite Hc. }
    destruct disableAdvancements; cbn [negb].
    + right; right. exists pos, c. repeat split; [done..|].
      unfold bind. by rewrite Hupd.
    + destruct (has_steps _).
      * right; left. exists c. split; [by eapply list_elem_of_lookup_2|done].
      * right; right. exists pos, c. repeat split; [done..|].
        unfold bind. by rewrite Hupd.
Qed.

(** C9: a dropped class grants at most [maxLevel] minus the character's
    level, so the total level never rises above [maxLevel]; when nothing is
    left to grant the drop is refused: an error is notified, [false] is
    returned, and the actor is as it was. *)
Theorem class_drop_is_clamped (itemData : ItemData) (w : World) :
  d_type itemData = "class" ->
  let granted := Z.min (d_levels itemData) (maxLevel - details_level (actor w)) in
  let run := _onDropSingleItem maxLevel disableAdvancements forLevelChange itemData w in
  (granted <= 0 ->
     run = (Return DropFalse,
            {| actor := actor w; log := log w ++ [max_level_warning maxLevel] |}))
  /\ (0 < granted -> drop_outcome granted itemData w run)
  /\ details_level (actor run.2) <= Z.max maxLevel (details_level (actor w)).
Proof.
  intros Hty granted run.
  destruct (class_drop_run itemData w Hty) as [Hrej Hok].
  fold granted run in Hrej, Hok. split; [done|]. split; [done|].
  destruct (Z_le_gt_dec granted 0) as [Hg|Hg].
  - rewrite (Hrej Hg). cbn [snd actor]. lia.
  - destruct (Hok ltac:(lia)) as [H|[(c & _ & H)|(pos & c & Hc & Hclass & H)]];
      rewrite H; cbn [snd actor]; [lia..|].
    rewrite (details_level_update _ _ _ _ Hc Hclass). subst granted. lia.
Qed.

End ClassDrop.

Section ClassDropExamples.
Import ActorSheet5eCharacter.

Lemma class_drop_is_clamped_witness :
  d_type dropped_guardian = "class"
  /\ (let granted :=
        Z.min (d_levels dropped_guardian) (20 - details_level (actor sample_world)) in
      let run :=
        _onDropSingleItem 20 true one_step_per_level dropped_guardian sample_world in
      (granted <= 0 ->
         run = (Return DropFalse,
                {| actor := actor sample_world;
                   log := log sample_world ++ [max_level_warning 20] |}))
      /\ (0 < granted -> drop_outcome granted dropped_guardian sample_world run)
      /\ details_level (actor run.2)
         <= Z.max 20 (details_level (actor sample_world))).
Proof.
  split; [reflexivity|].
  apply (class_drop_is_clamped 20 true one_step_per_level dropped_guardian
           sample_world).
  reflexivity.
Defined.

(** Three levels of a class the character has, one level below the maximum:
    one level is granted. *)
Example drop_on_existing_class :
  _onDropSingleItem 20 true one_step_per_level dropped_guardian sample_world
  = (Return DropFalse,
     {| actor := {| items := [set_levels 13 guardian; scout]; advancements := ∅ |};
        log := [DocumentUpdate "c1" 13] |})
  /\ _onDropSingleItem 20 false one_step_per_level dropped_guardian sample_world
     = (Return DropFalse,
        {| actor := sample_actor; log := [RenderManager "c1" 1] |}).
Proof. split; reflexivity. Qed.

Example drop_of_new_class :
  _onDropSingleItem 20 false one_step_per_level dropped_sentinel sample_world
  = (Return (DropSuper (with_levels 1 dropped_sentinel)), sample_world).
Proof. reflexivity. Qed.

Example drop_at_max_level_refused :
  _onDropSingleItem 19 false one_step_per_level dropped_sentinel sample_world
  = (Return DropFalse,
     {| actor := sample_actor;
        log := [NotifyError {| msg_key := "SW5E.MaxCharacterLevelExceededWarn";
                               msg_data := [("max", Plain (Some "19"))] |}] |}).
Proof. reflexivity. Qed.

End ClassDropExamples.

(** ** AdvancementManager: discarding a manager *)

Section ManagerCancellation.
Import AdvancementManager.

Lemma advance_actor formData m :
  AdvancementManager.actor (advance formData m) = AdvancementManager.actor m.
Proof.
  unfold advance. destruct (stepping m); [|done].
  destruct (steps m !! stepIndex m) as [s|]; [|done].
  by destruct (run_step s formData (clone m)).
Qed.

Lemma retreat_actor m :
  AdvancementManager.actor (retreat m) = AdvancementManager.actor m.
Proof.
  unfold retreat.
  destruct (phase m), (stepIndex m) as [|i]; try done;
    (destruct (steps m !! i) as [s|]; [|done]);
    by destruct (undo_step s (clone m)).
Qed.

Lemma act_actor m a :
  AdvancementManager.actor (act m a) = AdvancementManager.actor m.
Proof. destruct a; [apply advance_actor|apply retreat_actor]. Qed.

(** Stepping never commits: the manager stays before the batch update. *)
Lemma act_not_committed m a : phase m <> Committed -> phase (act m a) <> Committed.
Proof.
  intros Hp. destruct a as [formData|]; cbn [act].
  - unfold advance. destruct (stepping m); [|done].
    destruct (steps m !! stepIndex m) as [s|]; [|done].
    destruct (run_step s formData (clone m)). cbn [phase].
    by case_bool_decide.
  - unfold retreat.
    destruct (phase m) eqn:E, (stepIndex m) as [|i]; rewrite ?E; try done;
      (destruct (steps m !! i) as [s|]; [|by rewrite E]);
      by destruct (undo_step s (clone m)).
Qed.

Lemma run_actor m actions :
  AdvancementManager.actor (run m actions) = AdvancementManager.actor m.
Proof.
  revert m. induction actions as [|a actions IH]; intros m; [done|].
  cbn [run foldl]. fold (run (act m a) actions).
  by rewrite IH, act_actor.
Qed.

(** C2: whatever the user did with the manager before it commits, discarding
    it gives back the actor exactly as it was when the manager was built;
    the steps only ever wrote to the clone. *)
Theorem cancel_leaves_actor_untouched (a : Actor5e) (steps : list Step)
    (actions : list Action) :
  cancel (run (create a steps) actions) = a
  /\ phase (run (create a steps) actions) <> Committed.
Proof.
  split.
  - unfold cancel. by rewrite run_actor.
  - generalize (create a steps), (eq_refl : phase (create a steps) = Built).
    intros m Hm. assert (phase m <> Committed) as Hp by (by rewrite Hm).
    clear Hm. revert m Hp.
    induction actions as [|x actions IH]; intros m Hp; [done|].
    cbn [run foldl]. apply IH. by apply act_not_committed.
Qed.

(** A failed commit leaves the actor as it was, too. *)
Lemma failed_commit_leaves_actor_untouched (a : Actor5e) (steps : list Step)
    (actions : list Action) :
  AdvancementManager.actor (commit false (run (create a steps) actions)) = a.
Proof.
  unfold commit. destruct (phase _); by rewrite ?run_actor.
Qed.

Example clone_is_changed_actor_is_not :
  let m := run (create sample_actor one_choice) [Advance submitted] in
  value_at (clone m) "adv1" 3 = Some submitted
  /\ value_at (AdvancementManager.actor m) "adv1" 3 = None
  /\ cancel m = sample_actor
  /\ value_at (AdvancementManager.actor (commit true m)) "adv1" 3 = Some submitted.
Proof. repeat split; reflexivity. Qed.

Example retreat_undoes_the_step :
  let m := run (create sample_actor one_choice) [Advance submitted; Retreat] in
  value_at (clone m) "adv1" 3 = None
  /\ stepIndex m = 0%nat
  /\ (step_retained <$> steps m) = [Some submitted].
Proof. repeat split; reflexivity. Qed.

End ManagerCancellation.

(** ** utils: simplifyBonus *)

Section SimplifyBonus.
Import utils.

Variable JsNumber : Type.
Variable zero : JsNumber.
Variable number_is_falsy : JsNumber -> bool.
Variable Number_isNumeric : Bonus JsNumber -> bool.
Variable Number : Bonus JsNumber -> JsNumber.
Variable Data : Type.
Variable Roll : Type.
Variable new_Roll : Bonus JsNumber -> Data -> Outcome Roll.
Variable isDeterministic : Roll -> bool.
Variable formula : Roll -> string.
Variable Roll_safeEval : string -> Outcome JsNumber.

Abbreviation simplify :=
  (simplifyBonus JsNumber zero number_is_falsy Number_isNumeric Number Data Roll
     new_Roll isDeterministic formula Roll_safeEval).
Abbreviation simplified :=
  (utils.simplified JsNumber zero number_is_falsy Number_isNumeric Number Data
     Roll new_Roll isDeterministic formula Roll_safeEval).

(** C10: [simplifyBonus] always returns a number and never throws: 0 for a
    falsy bonus, [Number(bonus)] for a numeric one, the value of the formula
    when the roll is deterministic, and 0 when it is not or when the roll or
    its evaluation raises an error. *)
Theorem simplifyBonus_total (bonus : Bonus JsNumber) (data : Data) :
  exists n, simplify bonus data = Return n /\ simplified bonus data n.
Proof.
  unfold simplifyBonus, simplified.
  destruct (falsy _ _ bonus); [by exists zero|].
  destruct (Number_isNumeric bonus); [by eexists|].
  destruct (new_Roll bonus data) as [roll|e]; cbn [obind try_catch];
    [|by exists zero].
  destruct (isDeterministic roll); [|by exists zero].
  destruct (Roll_safeEval (formula roll)) as [v|e]; [by exists v|by exists zero].
Qed.

(** The handler of the [try] turns every error of the roll into 0. *)
Lemma simplifyBonus_never_throws (bonus : Bonus JsNumber) (data : Data) e :
  simplify bonus data <> Throw e.
Proof.
  unfold simplifyBonus.
  destruct (falsy _ _ bonus); [done|].
  destruct (Number_isNumeric bonus); [done|].
  destruct (new_Roll bonus data) as [roll|e']; cbn [obind try_catch]; [|done].
  destruct (isDeterministic roll); [|done].
  by destruct (Roll_safeEval (formula roll)).
Qed.

End SimplifyBonus.

Section SimplifyBonusExamples.
Import utils.

Example simplifyBonus_samples :
  toy_simplifyBonus BNull tt = Return (Some 0)
  /\ toy_simplifyBonus (BString "") tt = Return (Some 0)
  /\ toy_simplifyBonus (BNumber (Some 0)) tt = Return (Some 0)
  /\ toy_simplifyBonus (BNumber (Some 4)) tt = Return (Some 4)
  /\ toy_simplifyBonus (BString "12") tt = Return (Some 12)
  /\ toy_simplifyBonus (BString "2 + 3") tt = Return (Some 5)
  /\ toy_simplifyBonus (BString "1d4") tt = Return (Some 0)
  /\ toy_simplifyBonus (BString "2 +") tt = Return (Some 0)
  /\ toy_simplifyBonus (BString "@prof") tt = Return (Some 0).
Proof. repeat split; reflexivity. Qed.

End SimplifyBonusExamples.

(* ===================================================================== *)
(** * Further properties of the sources *)
(* ===================================================================== *)

(** ** ActorSheet5eCharacter: the other ways of a level change *)

Section LevelChangePaths.
Import ActorSheet5eCharacter.

Variable disableAdvancements : bool.
Variable forLevelChange : Actor5e -> string -> Z -> AdvancementManager.Manager.
Variable response : DialogResponse.

Abbreviation onLevelChange :=
  (_onLevelChange disableAdvancements forLevelChange response).

(** A change event without a usable level delta (zero or not a number) or
    without a class id is only taken: nothing is asked of the host and the
    actor stays as it is. *)
Theorem level_change_ignored (event : ChangeEvent) (w : World) :
  value event = None \/ value event = Some 0
  \/ itemId event = None \/ itemId event = Some "" ->
  onLevelChange event w
  = (Return Undefined,
     {| actor := actor w; log := log w ++ [PreventDefault] |}).
Proof.
  intros H. unfold _onLevelChange, bind, emit, ret.
  destruct (value event) as [delta|], (itemId event) as [classId|];
    try reflexivity.
  destruct H as [H|[H|[H|H]]]; try discriminate.
  - injection H as ->. reflexivity.
  - injection H as ->. by rewrite orb_true_r.
Qed.

(** The run of the handler when there is no manager to show. *)
Lemma level_change_update_run (event : ChangeEvent) (w : World)
    (delta : Z) (classId : string) (pos : nat) (c : OwnedItem) :
  value event = Some delta ->
  itemId event = Some classId ->
  delta <> 0 ->
  classId <> "" ->
  disableAdvancements = true
  \/ has_steps (forLevelChange (actor w) classId delta) = false ->
  find_pos (fun i => bool_decide (id i = classId)) (items (actor w)) = Some pos ->
  items (actor w) !! pos = Some c ->
  let updated :=
    {| items := <[pos := set_levels (levels c + delta) c]> (items (actor w));
       advancements := advancements (actor w) |} in
  onLevelChange event w
  = (Return Updated,
     {| actor := updated;
        log := log w ++ [PreventDefault; DocumentUpdate (id c) (levels c + delta)] |})
  /\ (type c = "class" -> details_level updated = details_level (actor w) + delta).
Proof.
  intros Hv Hid Hd Hcls Hno Hpos Hc updated. split.
  - unfold _onLevelChange. rewrite Hv, Hid.
    assert ((delta =? 0) = false) as -> by lia.
    rewrite (bool_decide_eq_false_2 (classId = "")) by done.
    unfold bind at 1. unfold emit at 1. cbn [orb].
    unfold bind at 1. unfold get_actor at 1. cbn [actor].
    assert (bind (update_class (actor w) (Some pos) delta) (fun _ => ret Updated)
              {| actor := actor w; log := log w ++ [PreventDefault] |}
            = (Return Updated,
               {| actor := updated;
                  log := log w ++ [PreventDefault;
                                   DocumentUpdate (id c) (levels c + delta)] |}))
      as E.
    { unfold update_class, bind. rewrite Hc.
      unfold update_levels, bind, get_actor, emit, put_actor, ret.
      cbn [actor log]. rewrite Hc. cbn [actor log]. by rewrite <- app_assoc. }
    rewrite Hpos.
    destruct Hno as [->|Hno]; cbn [negb]; [exact E|].
    destruct disableAdvancements; cbn [negb]; [exact E|].
    rewrite Hno. exact E.
  - intros Hty. subst updated.
    rewrite (details_level_update _ _ _ _ Hc Hty). lia.
Qed.

(** Without a manager to show (advancements disabled, or no step for the
    change) the level of the class moves by the delta at once, with no
    prompt, and the character's total level moves with it. *)
Theorem level_change_without_manager (event : ChangeEvent) (w : World)
    (delta : Z) (classId : string) (pos : nat) (c : OwnedItem) :
  value event = Some delta ->
  itemId event = Some classId ->
  delta <> 0 ->
  classId <> "" ->
  disableAdvancements = true
  \/ has_steps (forLevelChange (actor w) classId delta) = false ->
  find_pos (fun i => bool_decide (id i = classId)) (items (actor w)) = Some pos ->
  items (actor w) !! pos = Some c ->
  let updated :=
    {| items := <[pos := set_levels (levels c + delta) c]> (items (actor w));
       advancements := advancements (actor w) |} in
  onLevelChange event w
  = (Return Updated,
     {| actor := updated;
        log := log w ++ [PreventDefault; DocumentUpdate (id c) (levels c + delta)] |})
  /\ (type c = "class" -> details_level updated = details_level (actor w) + delta).
Proof. intros. by apply (level_change_update_run event w delta classId). Qed.

(** A level increase whose manager has steps renders the manager: the user
    is asked nothing first, and the actor is not touched. *)
Theorem level_up_renders_manager (event : ChangeEvent) (w : World)
    (delta : Z) (classId : string) :
  value event = Some delta ->
  itemId event = Some classId ->
  0 < delta ->
  classId <> "" ->
  disableAdvancements = false ->
  has_steps (forLevelChange (actor w) classId delta) = true ->
  onLevelChange event w
  = (Return Rendered,
     {| actor := actor w;
        log := log w ++ [PreventDefault; RenderManager classId delta] |}).
Proof.
  intros Hv Hid Hd Hcls -> Hsteps.
  unfold _onLevelChange. rewrite Hv, Hid.
  assert ((delta =? 0) = false) as -> by lia.
  rewrite (bool_decide_eq_false_2 (classId = "")) by done.
  unfold bind at 1. unfold emit at 1. cbn [orb negb].
  unfold bind at 1. unfold get_actor at 1. cbn [actor]. rewrite Hsteps.
  assert ((0 <? delta) = true) as -> by lia.
  unfold bind, render, emit, ret. cbn [actor log].
  by rewrite <- app_assoc.
Qed.

(** A class id that is not the id of an owned item makes the update fail
    with a TypeError; the actor stays as it is. *)
Theorem level_change_of_unknown_item (event : ChangeEvent) (w : World)
    (delta : Z) (classId : string) :
  value event = Some delta ->
  itemId event = Some classId ->
  delta <> 0 ->
  classId <> "" ->
  disableAdvancements = true
  \/ has_steps (forLevelChange (actor w) classId delta) = false ->
  find_pos (fun i => bool_decide (id i = classId)) (items (actor w)) = None ->
  onLevelChange event w
  = (Throw (TypeError "classItem.update"),
     {| actor := actor w; log := log w ++ [PreventDefault] |}).
Proof.
  intros Hv Hid Hd Hcls Hno Hpos.
  unfold _onLevelChange. rewrite Hv, Hid.
  assert ((delta =? 0) = false) as -> by lia.
  rewrite (bool_decide_eq_false_2 (classId = "")) by done.
  unfold bind at 1. unfold emit at 1. cbn [orb].
  unfold bind at 1. unfold get_actor at 1. cbn [actor].
  rewrite Hpos.
  destruct Hno as [->|Hno]; cbn [negb]; [reflexivity|].
  destruct disableAdvancements; cbn [negb]; [reflexivity|].
  rewrite Hno. reflexivity.
Qed.

End LevelChangePaths.

Section LevelChangePathsExamples.
Import ActorSheet5eCharacter.

Lemma level_change_ignored_witness :
  _onLevelChange false one_step_per_level Reject
    {| value := Some 0; itemId := Some "c1" |} sample_world
  = (Return Undefined,
     {| actor := actor sample_world;
        log := log sample_world ++ [PreventDefault] |}).
Proof.
  apply (level_change_ignored false one_step_per_level Reject).
  right; left; reflexivity.
Defined.

Lemma level_change_without_manager_witness :
  let updated :=
    {| items := <[0%nat := set_levels (levels guardian + 2) guardian]>
                  (items (actor sample_world));
       advancements := advancements (actor sample_world) |} in
  _onLevelChange true one_step_per_level Reject level_up_by_two sample_world
  = (Return Updated,
     {| actor := updated;
        log := log sample_world
               ++ [PreventDefault; DocumentUpdate (id guardian) (levels guardian + 2)] |})
  /\ (type guardian = "class" ->
      details_level updated = details_level (actor sample_world) + 2).
Proof.
  apply (level_change_without_manager true one_step_per_level Reject
           level_up_by_two sample_world 2 "c1" 0 guardian);
    try reflexivity; try discriminate.
  left; reflexivity.
Defined.

Lemma level_up_renders_manager_witness :
  _onLevelChange false one_step_per_level Reject level_up_by_two sample_world
  = (Return Rendered,
     {| actor := actor sample_world;
        log := log sample_world ++ [PreventDefault; RenderManager "c1" 2] |}).
Proof.
  apply (level_up_renders_manager false one_step_per_level Reject
           level_up_by_two sample_world 2 "c1");
    try reflexivity; try discriminate.
Defined.

Lemma level_change_of_unknown_item_witness :
  _onLevelChange true one_step_per_level Reject
    {| value := Some 1; itemId := Some "gone" |} sample_world
  = (Throw (TypeError "classItem.update"),
     {| actor := actor sample_world;
        log := log sample_world ++ [PreventDefault] |}).
Proof.
  apply (level_change_of_unknown_item true one_step_per_level Reject
           {| value := Some 1; itemId := Some "gone" |} sample_world 1 "gone");
    try reflexivity; try discriminate.
  left; reflexivity.
Defined.

End LevelChangePathsExamples.

(** ** ActorSheet5eCharacter: dropping something that is not a class *)

Section OtherDrops.
Import ActorSheet5eCharacter.

Variable maxLevel : Z.
Variable disableAdvancements : bool.
Variable forLevelChange : Actor5e -> string -> Z -> AdvancementManager.Manager.

Abbreviation onDropSingleItem :=
  (_onDropSingleItem maxLevel disableAdvancements forLevelChange).

(** The drop of an item that is not a class never changes the actor and
    never opens a manager: the data goes unchanged to the base sheet, or the
    drop is refused with one error notification. *)
Theorem non_class_drop_leaves_actor (itemData : ItemData) (w : World) :
  d_type itemData <> "class" ->
  onDropSingleItem itemData w = (Return (DropSuper itemData), w)
  \/ exists m, onDropSingleItem itemData w
               = (Return DropFalse,
                  {| actor := actor w; log := log w ++ [NotifyError m] |}).
Proof.
  intros Hty. unfold _onDropSingleItem, bind, get_actor.
  rewrite (bool_decide_eq_false_2 _ Hty).
  case_bool_decide; [|by left].
  destruct (List.find _ _) as [other|]; [right; by eexists|].
  destruct (List.find _ _) as [cls|]; [|by left].
  destruct (archetype cls); [right; by eexists|by left].
Qed.

(** An archetype whose identifier an owned archetype already has is refused
    with the duplicate error, which names the identifier. *)
Theorem duplicate_archetype_refused (itemData : ItemData) (w : World)
    (other : OwnedItem) :
  d_type itemData = "archetype" ->
  other ∈ items (actor w) ->
  type other = "archetype" ->
  identifier other = d_identifier itemData ->
  onDropSingleItem itemData w
  = (Return DropFalse,
     {| actor := actor w;
        log := log w ++ [NotifyError
          {| msg_key := "SW5E.ArchetypeDuplicateError";
             msg_data := [("identifier", Plain (Some (d_identifier itemData)))] |}] |}).
Proof.
  intros Hty Hin Hother Hident. unfold _onDropSingleItem, bind, get_actor.
  rewrite (bool_decide_eq_false_2 (d_type itemData = "class"))
    by (rewrite Hty; discriminate).
  rewrite (bool_decide_eq_true_2 _ Hty).
  destruct (List.find _ _) as [found|] eqn:Hfind.
  - apply find_some in Hfind as [_ Hp]. unfold is_archetype_with in Hp.
    apply andb_true_iff in Hp as [_ Hp]. apply bool_decide_eq_true in Hp.
    unfold notify, emit, ret. by rewrite Hp.
  - exfalso. apply list_elem_of_In in Hin.
    pose proof (find_none _ _ Hfind other Hin) as Hp.
    unfold is_archetype_with in Hp.
    rewrite (bool_decide_eq_true_2 _ Hother), (bool_decide_eq_true_2 _ Hident) in Hp.
    discriminate.
Qed.

End OtherDrops.

Section OtherDropsExamples.
Import ActorSheet5eCharacter.

Lemma non_class_drop_leaves_actor_witness :
  _onDropSingleItem 20 false one_step_per_level dropped_blade sample_world
  = (Return (DropSuper dropped_blade), sample_world)
  \/ exists m, _onDropSingleItem 20 false one_step_per_level dropped_blade
                 sample_world
               = (Return DropFalse,
                  {| actor := actor sample_world;
                     log := log sample_world ++ [NotifyError m] |}).
Proof.
  apply (non_class_drop_leaves_actor 20 false one_step_per_level dropped_blade
           sample_world).
  discriminate.
Defined.

Lemma duplicate_archetype_refused_witness :
  _onDropSingleItem 20 false one_step_per_level dropped_shield_path
    specialized_world
  = (Return DropFalse,
     {| actor := actor specialized_world;
        log := log specialized_world ++ [NotifyError
          {| msg_key := "SW5E.ArchetypeDuplicateError";
             msg_data := [("identifier",
                           Plain (Some (d_identifier dropped_shield_path)))] |}] |}).
Proof.
  apply (duplicate_archetype_refused 20 false one_step_per_level
           dropped_shield_path specialized_world sentinel_path);
    try reflexivity.
  right; left.
Defined.

(** A second archetype for a class that has one is refused as well. *)
Example second_archetype_refused :
  _onDropSingleItem 20 false one_step_per_level
    {| d_type := "archetype"; d_levels := 0; d_identifier := "sword-path";
       d_classIdentifier := "guardian" |} specialized_world
  = (Return DropFalse,
     {| actor := actor specialized_world;
        log := [NotifyError
          {| msg_key := "SW5E.ArchetypeAssignmentError";
             msg_data := [("class", Plain (Some "Guardian"));
                          ("archetype", Plain (Some "Path of the Shield"))] |}] |}).
Proof. reflexivity. Qed.

End OtherDropsExamples.

(** ** ActorSheet5eCharacter: the levels offered for a class *)

Section AvailableLevels.
Import ActorSheet5eCharacter CharacterSheetItems.

Lemma Array_fromRange_tail (n : Z) :
  drop 1 (Array_fromRange (n + 1)) = Z.of_nat <$> seq 1%nat (Z.to_nat n).
Proof.
  unfold Array_fromRange. destruct (Z_le_gt_dec n 0) as [H|H].
  - replace (Z.to_nat n) with 0%nat by lia.
    destruct (Z_le_gt_dec (n + 1) 0) as [H'|H'].
    + by replace (Z.to_nat (n + 1)) with 0%nat by lia.
    + by replace (Z.to_nat (n + 1)) with 1%nat by lia.
  - replace (Z.to_nat (n + 1)) with (S (Z.to_nat n)) by lia. reflexivity.
Qed.

Lemma availableLevels_entries (maxLevel : Z) (a : Actor5e) (cls : OwnedItem) :
  Forall (fun o => delta o = level o - levels cls
                   /\ (disabled o = false
                       <-> details_level a + delta o <= maxLevel))
         (availableLevels maxLevel a cls).
Proof.
  unfold availableLevels.
  apply Forall_fmap, Forall_forall. intros n _. cbn. split; [done|].
  destruct (Z.ltb_spec (maxLevel - details_level a) (n - levels cls)); split;
    intros; try done; lia.
Qed.

(** The level selector of a class offers the levels 1 to [maxLevel], each
    with its distance from the class's level, and an entry is enabled
    exactly when taking it keeps the character's total level within
    [maxLevel]. *)
Theorem availableLevels_offers (maxLevel : Z) (a : Actor5e) (cls : OwnedItem) :
  level <$> availableLevels maxLevel a cls = Z.of_nat <$> seq 1%nat (Z.to_nat maxLevel)
  /\ Forall (fun o => delta o = level o - levels cls
                      /\ (disabled o = false
                          <-> details_level a + delta o <= maxLevel))
            (availableLevels maxLevel a cls).
Proof.
  split; [|apply availableLevels_entries].
  unfold availableLevels. rewrite Array_fromRange_tail.
  generalize (Z.of_nat <$> seq 1%nat (Z.to_nat maxLevel)). intros l.
  induction l as [|x l IH]; [done|]. cbn. by rewrite IH.
Qed.

Variable forLevelChange : Actor5e -> string -> Z -> AdvancementManager.Manager.
Variable response : DialogResponse.

(** Taking an enabled entry of the selector, with advancements disabled,
    brings the class to the level of the entry and leaves the character's
    total level within [maxLevel]. *)
Theorem enabled_level_keeps_maximum (maxLevel : Z) (w : World)
    (pos : nat) (c : OwnedItem) (o : LevelOption) :
  o ∈ availableLevels maxLevel (actor w) c ->
  disabled o = false ->
  delta o <> 0 ->
  id c <> "" ->
  type c = "class" ->
  find_pos (fun i => bool_decide (id i = id c)) (items (actor w)) = Some pos ->
  items (actor w) !! pos = Some c ->
  let run := _onLevelChange true forLevelChange response
               {| value := Some (delta o); itemId := Some (id c) |} w in
  run.1 = Return Updated
  /\ items (actor run.2) !! pos = Some (set_levels (level o) c)
  /\ details_level (actor run.2) <= maxLevel.
Proof.
  intros Ho Hen Hd Hid Hty Hpos Hc run.
  pose proof (availableLevels_entries maxLevel (actor w) c) as Hall.
  rewrite Forall_forall in Hall. destruct (Hall o Ho) as [Hdelta Hdis].
  destruct (level_change_update_run true forLevelChange response
              {| value := Some (delta o); itemId := Some (id c) |} w
              (delta o) (id c) pos c) as [Hrun Htotal]; try done; [by left|].
  subst run. rewrite Hrun. cbn [fst snd actor items]. split; [done|]. split.
  - rewrite list_lookup_insert_eq by (by eapply lookup_lt_Some).
    f_equal. unfold set_levels. f_equal. lia.
  - rewrite (Htotal Hty). by apply Hdis.
Qed.

End AvailableLevels.

Section AvailableLevelsExamples.
Import ActorSheet5eCharacter CharacterSheetItems.

(** At total level 19 of 20 the first class can move up by one level only. *)
Example available_levels_sample :
  filter (fun o => disabled o = false) (availableLevels 20 sample_actor guardian)
  = (fun l => {| level := l; delta := l - 12; disabled := false |})
    <$> [1; 2; 3; 4; 5; 6; 7; 8; 9; 10; 11; 12; 13].
Proof. reflexivity. Qed.

Lemma enabled_level_keeps_maximum_witness :
  let run := _onLevelChange true one_step_per_level Reject
               {| value := Some 1; itemId := Some (id guardian) |} sample_world in
  run.1 = Return Updated
  /\ items (actor run.2) !! 0%nat = Some (set_levels 13 guardian)
  /\ details_level (actor run.2) <= 20.
Proof.
  apply (enabled_level_keeps_maximum one_step_per_level Reject 20 sample_world
           0 guardian {| level := 13; delta := 1; disabled := false |});
    try reflexivity; try discriminate.
  apply (list_elem_of_lookup_2 _ 12%nat). reflexivity.
Defined.

End AvailableLevelsExamples.

(** ** ActorSheet5eCharacter: classes and their archetypes *)

Section SortedArrays.
Import CharacterSheetItems.

Context {A : Type} (compare : A -> A -> Z).

Lemma sort_insert_Permutation (x : A) (l : list A) :
  sort_insert compare x l ≡ₚ x :: l.
Proof.
  induction l as [|y l IH]; [done|]. cbn [sort_insert].
  destruct (compare x y <=? 0); [done|].
  rewrite IH. apply Permutation_swap.
Qed.

Lemma Array_sort_Permutation (l : list A) : Array_sort compare l ≡ₚ l.
Proof.
  induction l as [|x l IH]; [done|]. cbn [Array_sort foldr].
  fold (Array_sort compare l). by rewrite sort_insert_Permutation, IH.
Qed.

(** The comparison is consistent: it orders any two elements one way or the
    other, transitively. *)
Hypothesis compare_total : forall a b, compare a b <= 0 \/ compare b a <= 0.
Hypothesis compare_trans :
  forall a b c, compare a b <= 0 -> compare b c <= 0 -> compare a c <= 0.

Lemma sort_insert_sorted (x : A) (l : list A) :
  StronglySorted (fun a b => compare a b <= 0) l ->
  StronglySorted (fun a b => compare a b <= 0) (sort_insert compare x l).
Proof.
  induction 1 as [|y l Hs IH Hall]; cbn [sort_insert]; [by repeat constructor|].
  destruct (Z.leb_spec (compare x y) 0) as [Hxy|Hxy].
  - constructor; [by constructor|]. constructor; [done|].
    eapply Forall_impl; [exact Hall|]. intros z Hz. by eapply compare_trans.
  - constructor; [done|]. rewrite sort_insert_Permutation.
    constructor; [|done]. destruct (compare_total x y); [lia|done].
Qed.

Lemma Array_sort_sorted (l : list A) :
  StronglySorted (fun a b => compare a b <= 0) (Array_sort compare l).
Proof.
  induction l as [|x l IH]; [constructor|].
  cbn [Array_sort foldr]. by apply sort_insert_sorted.
Qed.

End SortedArrays.

Lemma StronglySorted_weaken {A} (R R' : A -> A -> Prop) (l : list A) :
  (forall a b, R a b -> R' a b) -> StronglySorted R l -> StronglySorted R' l.
Proof.
  intros HR. induction 1 as [|x l Hs IH Hall]; constructor; [done|].
  eapply Forall_impl; [exact Hall|]. apply HR.
Qed.

Section OrganizeClasses.
Import CharacterSheetItems.

Variable system_identifier : OwnedItem -> string.
Variable slugify : string -> string.

Lemma findSplice_found {A} (find : A -> bool) (l : list A) x rest :
  findSplice find l = (Some x, rest) -> l ≡ₚ x :: rest /\ find x = true.
Proof.
  revert rest. induction l as [|y l IH]; intros rest; [done|]. cbn [findSplice].
  destruct (find y) eqn:Hy.
  - intros [= <- <-]. done.
  - destruct (findSplice find l) as [r rest']. intros [= -> <-].
    destruct (IH rest' eq_refl) as [Hp Hx]. split; [|done].
    rewrite Hp. apply Permutation_swap.
Qed.

Lemma findSplice_missing {A} (find : A -> bool) (l : list A) rest :
  findSplice find l = (None, rest) -> rest = l.
Proof.
  revert rest. induction l as [|y l IH]; intros rest; cbn [findSplice].
  - by intros [= <-].
  - destruct (find y); [done|].
    destruct (findSplice find l) as [r rest']. intros [= -> <-].
    by rewrite (IH rest' eq_refl).
Qed.

Abbreviation step := (interleave_step system_identifier slugify).



Lemma interleave_classes (classes : list OwnedItem) arr archetypes :
  Forall is_class classes ->
  Forall (fun a => ~ is_class a) archetypes ->
  filter is_class (foldl step (arr, archetypes) classes).1
  = filter is_class arr ++ classes.
Proof.
  intros Hc. revert arr archetypes.
  induction Hc as [|cls classes Hcls _ IH]; intros arr archetypes Ha;
    [by rewrite app_nil_r|].
  cbn [foldl]. unfold interleave_step at 2.
  destruct (findSplice _ archetypes) as [[a|] rest] eqn:E.
  - pose proof E as E'. apply findSplice_found in E' as [Hp _].
    assert (Forall (fun a => ~ is_class a) (a :: rest)) as Hrest
      by (by rewrite <- Hp).
    apply Forall_cons in Hrest as [Hna Hrest].
    rewrite IH by done. rewrite filter_app. cbn [filter].
    rewrite !filter_cons, decide_True, decide_False by done.
    rewrite filter_nil. by rewrite <- app_assoc.
  - apply findSplice_missing in E as ->.
    rewrite IH by done. rewrite filter_app.
    rewrite filter_cons, decide_True by done.
    rewrite filter_nil. by rewrite <- app_assoc.
Qed.

(** The classes are displayed highest level first; the archetypes placed
    among them do not change the order of the classes, and no class is
    missing or shown twice. *)
Theorem organize_classes_by_level
    (classes archetypes feats : list OwnedItem) (warnings : list Warning) :
  Forall is_class classes ->
  Forall (fun a => ~ is_class a) archetypes ->
  let displayed :=
    (organize_classes system_identifier slugify classes archetypes feats warnings).1.1 in
  filter is_class displayed = Array_sort (fun a b => levels b - levels a) classes
  /\ StronglySorted (fun a b => levels b <= levels a) (filter is_class displayed)
  /\ filter is_class displayed ≡ₚ classes.
Proof.
  intros Hc Ha displayed. subst displayed. unfold organize_classes.
  pose proof (interleave_classes
                (Array_sort (fun a b => levels b - levels a) classes) [] archetypes)
    as Hf.
  destruct (foldl _ _ _) as [arr unmatched]. cbn [fst snd] in *.
  rewrite Hf; [|by rewrite (Array_sort_Permutation _ classes)|done].
  cbn [filter app]. rewrite filter_nil. cbn [app]. split; [done|]. split.
  - eapply StronglySorted_weaken; [|apply Array_sort_sorted].
    + intros a b. cbn. lia.
    + intros a b. lia.
    + intros a b c. lia.
  - apply Array_sort_Permutation.
Qed.

End OrganizeClasses.

Section OrganizeClassesExamples.
Import CharacterSheetItems.

Example classes_with_archetypes :
  organize_classes identifier (fun n => n) [scout; guardian_with_path]
    [sentinel_path;
     {| id := "a2"; name := "Way of the Lost"; type := "archetype";
        identifier := "lost-way"; classIdentifier := "wanderer"; levels := 0;
        archetype := None |}] [] []
  = ([guardian_with_path; sentinel_path; scout],
     [{| id := "a2"; name := "Way of the Lost"; type := "archetype";
         identifier := "lost-way"; classIdentifier := "wanderer"; levels := 0;
         archetype := None |}],
     [{| message := {| msg_key := "SW5E.ArchetypeMismatchWarn";
                       msg_data := [("name", Plain (Some "Way of the Lost"));
                                    ("class", Plain (Some "wanderer"))] |};
         warning_type := "warning" |}]).
Proof. reflexivity. Qed.

Lemma organize_classes_by_level_witness :
  let displayed :=
    (organize_classes identifier (fun n => n) [scout; guardian_with_path]
       [sentinel_path] [] []).1.1 in
  filter is_class displayed
  = Array_sort (fun a b => levels b - levels a) [scout; guardian_with_path]
  /\ StronglySorted (fun a b => levels b <= levels a) (filter is_class displayed)
  /\ filter is_class displayed ≡ₚ [scout; guardian_with_path].
Proof.
  apply (organize_classes_by_level identifier (fun n => n)
           [scout; guardian_with_path] [sentinel_path] [] []).
  - repeat constructor.
  - repeat constructor. discriminate.
Defined.

End OrganizeClassesExamples.

(** ** ActorSheet5eCharacter: the toggle of an item *)

Section ItemToggle.
Import CharacterSheetItems.

Variable powerPreparationModes : gmap string string.

Abbreviation display := (_prepareItemToggleState powerPreparationModes).

(** A click on the toggle flips what the sheet displays: an active toggle
    becomes inactive and an inactive one active, except for a power that is
    always prepared, whose toggle stays fixed. *)
Theorem toggle_flips_display (item : ToggleItem) (context : ToggleContext) :
  toggleClass (display (toggled item) context)
  = flipped (toggleClass (display item context))
  /\ (toggleClass (display item context) = Some "fixed"
      \/ toggleClass (display item context) = Some "active"
      \/ toggleClass (display item context) = Some "").
Proof.
  unfold _prepareItemToggleState, toggled, flipped.
  destruct item as [tid ty prep eq]. cbn [toggle_type preparation equipped].
  destruct prep as [[m p]|], eq as [[]|]; cbn;
    repeat case_bool_decide; simplify_eq; cbn;
    try (destruct p as [[]|]; cbn); auto.
Qed.

(** Two clicks bring the display back to where it was. *)
Theorem toggle_twice_restores_display (item : ToggleItem)
    (context : ToggleContext) :
  toggleClass (display (toggled (toggled item)) context)
  = toggleClass (display item context)
  /\ toggleTitle (display (toggled (toggled item)) context)
     = toggleTitle (display item context).
Proof.
  unfold _prepareItemToggleState, toggled.
  destruct item as [tid ty prep eq]. cbn [toggle_type preparation equipped].
  destruct prep as [[m p]|], eq as [[]|]; cbn;
    repeat case_bool_decide; simplify_eq; cbn;
    try (destruct p as [[]|]; cbn); auto.
Qed.

(** The click changes the item of the clicked row and no other; a row whose
    item the actor does not have fails with a TypeError. *)
Theorem onToggleItem_changes_one_item (itemId : string) (items : list ToggleItem) :
  match _onToggleItem itemId items with
  | Return items' =>
      exists pos item,
        items !! pos = Some item /\ toggle_id item = itemId
        /\ items' = <[pos := toggled item]> items
        /\ length items' = length items
        /\ forall j, j <> pos -> items' !! j = items !! j
  | Throw e =>
      e = TypeError "item.type" /\ Forall (fun i => toggle_id i <> itemId) items
  end.
Proof.
  unfold _onToggleItem.
  destruct (find_pos _ items) as [pos|] eqn:Hpos.
  - destruct (find_pos_Some _ _ _ Hpos) as (item & Hitem & Hid).
    rewrite Hitem. exists pos, item. apply bool_decide_eq_true in Hid.
    repeat split; try done.
    + apply length_insert.
    + intros j Hj. by apply list_lookup_insert_ne.
  - split; [done|]. clear -Hpos.
    induction items as [|i items IH]; [constructor|]. cbn [find_pos] in Hpos.
    case_bool_decide as Hi; [done|].
    constructor; [done|]. apply IH. by destruct (find_pos _ items).
Qed.

End ItemToggle.

(** ** Regular expressions: the test of a whole string *)

Section RegExpTest.
Import RegExp.

Lemma append_empty (s1 s2 : string) : s1 +:+ s2 = "" -> s1 = "" /\ s2 = "".
Proof. by destruct s1. Qed.

Lemma nullable_Matches (r : regex) : nullable r = true <-> Matches r "".
Proof.
  split.
  - induction r as [| |class|r1 IH1 r2 IH2|r1 IH1 r2 IH2|r IH];
      cbn [nullable]; intros H; try done.
    + constructor.
    + apply andb_true_iff in H as [H1 H2].
      apply (MCat _ _ "" ""); auto.
    + apply orb_true_iff in H as [H|H]; [apply MOrL|apply MOrR]; auto.
    + constructor.
  - intros H. remember "" as s eqn:Hs.
    induction H; cbn [nullable]; try done.
    + apply append_empty in Hs as [-> ->]. by rewrite IHMatches1, IHMatches2.
    + by rewrite IHMatches.
    + rewrite IHMatches by done. apply orb_true_r.
Qed.

Lemma Matches_after (c : ascii) (r : regex) (s : string) :
  Matches r (String c s) -> Matches (after c r) s.
Proof.
  intros H. remember (String c s) as cs eqn:Hcs. revert s Hcs.
  induction H as [|class d Hd|r1 r2 s1 s2 H1 IH1 H2 IH2|r1 r2 s0 H IH
                  |r1 r2 s0 H IH| |r s1 s2 H1 IH1 H2 IH2];
    intros s Hcs; cbn [after]; try done.
  - injection Hcs as -> <-. rewrite Hd. constructor.
  - destruct s1 as [|d s1].
    + assert (s2 = String c s) as -> by exact Hcs.
      rewrite (proj2 (nullable_Matches r1) H1). apply MOrR. by apply IH2.
    + injection Hcs as -> <-.
      destruct (nullable r1); [apply MOrL|]; constructor; auto.
  - apply MOrL. by apply IH.
  - apply MOrR. by apply IH.
  - destruct s1 as [|d s1].
    + assert (s2 = String c s) as -> by exact Hcs. by apply IH2.
    + injection Hcs as -> <-. constructor; auto.
Qed.

Lemma after_Matches (c : ascii) (r : regex) (s : string) :
  Matches (after c r) s -> Matches r (String c s).
Proof.
  revert s. induction r as [| |class|r1 IH1 r2 IH2|r1 IH1 r2 IH2|r IH];
    intros s; cbn [after]; intros H.
  - inversion H.
  - inversion H.
  - destruct (class c) eqn:Hc; inversion H; subst. by constructor.
  - destruct (nullable r1) eqn:Hn.
    + inversion H as [| | |? ? ? H'|? ? ? H'| |]; subst.
      * inversion H' as [| |? ? s1 s2 Ha Hb| | | |]; subst.
        apply (MCat r1 r2 (String c s1) s2); auto.
      * apply (MCat r1 r2 "" (String c s)); [by apply nullable_Matches|auto].
    + inversion H as [| |? ? s1 s2 Ha Hb| | | |]; subst.
      apply (MCat r1 r2 (String c s1) s2); auto.
  - inversion H; subst; [apply MOrL|apply MOrR]; auto.
  - inversion H as [| |? ? s1 s2 Ha Hb| | | |]; subst.
    apply (MStarS r (String c s1) s2); auto.
Qed.

(** The test accepts exactly the strings the pattern stands for. *)
Lemma test_Matches (r : regex) (s : string) : test r s = true <-> Matches r s.
Proof.
  revert r. induction s as [|c s IH]; intros r; cbn [test].
  - apply nullable_Matches.
  - rewrite IH. split; [apply after_Matches|apply Matches_after].
Qed.

Lemma Star_Chars_Matches (class : ascii -> bool) (s : string) :
  Matches (Star (Chars class)) s <-> all_chars class s = true.
Proof.
  split.
  - intros H. remember (Star (Chars class)) as r eqn:Hr.
    induction H as [| | | | | |r0 s1 s2 H1 _ H2 IH2]; try done.
    injection Hr as ->. inversion H1 as [|? c Hc| | | | |]; subst.
    change (class c && all_chars class s2 = true).
    by rewrite Hc, IH2.
  - induction s as [|c s IH]; cbn [all_chars]; intros H; [constructor|].
    apply andb_true_iff in H as [Hc Hs].
    apply (MStarS _ (String c "") s); [by constructor|auto].
Qed.

(** [/^(class+)$/.test(s)]: [s] is not empty and all its characters are in
    the class. *)
Lemma test_Plus_Chars (class : ascii -> bool) (s : string) :
  test (Plus (Chars class)) s = negb (bool_decide (s = "")) && all_chars class s.
Proof.
  apply eq_true_iff_eq. rewrite test_Matches. unfold Plus.
  rewrite andb_true_iff, negb_true_iff, bool_decide_eq_false.
  rewrite <- Star_Chars_Matches. split.
  - intros H. inversion H as [| |? ? s1 s2 H1 H2| | | |]; subst.
    inversion H1; subst. split; [done|].
    apply (MStarS _ (String c "") s2); [by constructor|done].
  - intros [Hne H]. destruct s as [|c s]; [done|].
    apply Star_Chars_Matches in H. cbn in H.
    apply andb_true_iff in H as [Hc Hs].
    apply (MCat _ _ (String c "") s); [by constructor|].
    by apply Star_Chars_Matches.
Qed.

End RegExpTest.

(** ** utils: identifiers *)

Section Identifiers.
Import RegExp utilsHelpers.

Lemma ignore_case_identifier_class (c : ascii) :
  ignore_case identifier_class c = is_identifier_char c.
Proof. destruct c as [[] [] [] [] [] [] [] []]; reflexivity. Qed.

Lemma all_chars_ext (p q : ascii -> bool) (s : string) :
  (forall c, p c = q c) -> all_chars p s = all_chars q s.
Proof.
  intros H. induction s as [|c s IH]; [done|].
  change (p c && all_chars p s = q c && all_chars q s). by rewrite H, IH.
Qed.

Lemma all_chars_app (p : ascii -> bool) (s1 s2 : string) :
  all_chars p (s1 +:+ s2) = all_chars p s1 && all_chars p s2.
Proof.
  induction s1 as [|c s1 IH]; [done|].
  change (p c && all_chars p (s1 +:+ s2)
          = p c && all_chars p s1 && all_chars p s2).
  by rewrite IH, andb_assoc.
Qed.

(** An identifier is valid exactly when it is not empty and made of ASCII
    letters of either case, digits, underscores and hyphens; so valid
    identifiers can be joined, and none holds a dot or a space. *)
Theorem isValidIdentifier_characters (identifier : string) :
  (isValidIdentifier identifier = true
   <-> identifier <> "" /\ all_chars is_identifier_char identifier = true)
  /\ (forall other, isValidIdentifier identifier = true ->
        isValidIdentifier other = true ->
        isValidIdentifier (identifier +:+ other) = true)
  /\ (forall before after,
        isValidIdentifier (before +:+ "." +:+ after) = false
        /\ isValidIdentifier (before +:+ " " +:+ after) = false).
Proof.
  assert (forall s, isValidIdentifier s
                    = negb (bool_decide (s = "")) && all_chars is_identifier_char s)
    as Heq.
  { intros s. unfold isValidIdentifier. rewrite test_Plus_Chars.
    f_equal. apply all_chars_ext, ignore_case_identifier_class. }
  split; [|split].
  - rewrite Heq, andb_true_iff, negb_true_iff, bool_decide_eq_false. done.
  - intros other. rewrite !Heq, !andb_true_iff, !negb_true_iff,
      !bool_decide_eq_false, all_chars_app.
    intros [Hne ->] [_ ->]. split; [|done].
    destruct identifier; [done|discriminate].
  - intros before after. rewrite !Heq, !all_chars_app. cbn.
    rewrite !andb_false_r. done.
Qed.

Example identifiers :
  isValidIdentifier "shield-path" = true
  /\ isValidIdentifier "Guardian_2" = true
  /\ isValidIdentifier "" = false
  /\ isValidIdentifier "path of the shield" = false
  /\ isValidIdentifier "scale.value" = false.
Proof. repeat split; reflexivity. Qed.

End Identifiers.

(** ** utils: objects, their entries, and sorting them *)

Section Objects.
Import JS utilsHelpers.

Context {A : Type}.
Implicit Types o : JsObject A.

Lemma get_None k o : k ∉ o.*1 -> get k o = None.
Proof.
  induction o as [|[k' v] o IH]; [done|]. cbn [get fmap list_fmap fst].
  intros Hk. apply not_elem_of_cons in Hk as [Hne Hk].
  rewrite bool_decide_eq_false_2 by done. by apply IH.
Qed.

Lemma get_Some k v o : well_formed o -> (k, v) ∈ o -> get k o = Some v.
Proof.
  unfold well_formed.
  induction o as [|[k' v'] o IH]; intros Hnd Hin; [by apply elem_of_nil in Hin|].
  cbn [fmap list_fmap fst] in Hnd. apply NoDup_cons in Hnd as [Hk' Hnd].
  cbn [get]. apply elem_of_cons in Hin as [[= -> ->]|Hin].
  - by rewrite bool_decide_eq_true_2.
  - rewrite bool_decide_eq_false_2; [by apply IH|].
    intros ->. apply Hk'. apply list_elem_of_fmap. by exists (k, v).
Qed.

Lemma get_elem_of k v o : get k o = Some v -> (k, v) ∈ o.
Proof.
  induction o as [|[k' v'] o IH]; [done|]. cbn [get].
  case_bool_decide as Hk.
  - intros [= ->]. subst. left.
  - intros H. right. by apply IH.
Qed.

(** Two objects with the same properties read the same, whatever the order
    of the properties. *)
Lemma get_Permutation k o1 o2 :
  well_formed o1 -> o1 ≡ₚ o2 -> get k o1 = get k o2.
Proof.
  intros Hwf Hp.
  assert (well_formed o2) as Hwf2 by (unfold well_formed in *; by rewrite <- Hp).
  destruct (get k o1) as [v|] eqn:E1.
  - symmetry. apply get_Some; [done|]. rewrite <- Hp. by apply get_elem_of.
  - destruct (get k o2) as [v|] eqn:E2; [|done].
    apply get_elem_of in E2. rewrite <- Hp in E2.
    by rewrite (get_Some _ _ _ Hwf E2) in E1.
Qed.

Lemma entries_of_pairs o (l : list (string * A)) :
  (forall k v, (k, v) ∈ l -> get k o = Some v) ->
  omap (fun k => (fun v => (k, v)) <$> get k o) l.*1 = l.
Proof.
  induction l as [|[k v] l IH]; intros H; [done|].
  cbn [fmap list_fmap fst omap list_omap].
  rewrite (H k v) by left. cbn [fmap option_fmap option_map].
  f_equal. apply IH. intros k' v' Hin. apply H. by right.
Qed.

(** [Object.entries] lists every property once. *)
Lemma Object_entries_Permutation o : well_formed o -> Object_entries o ≡ₚ o.
Proof.
  intros Hwf. unfold Object_entries.
  rewrite (Object_keys_Permutation o).
  rewrite entries_of_pairs; [done|]. intros k v. by apply get_Some.
Qed.

Lemma set_fresh k (v : A) o : k ∉ o.*1 -> set k v o = o ++ [(k, v)].
Proof.
  induction o as [|[k' v'] o IH]; [done|]. cbn [fmap list_fmap fst set].
  intros Hk. apply not_elem_of_cons in Hk as [Hne Hk].
  rewrite bool_decide_eq_false_2 by done. cbn [app]. by rewrite IH.
Qed.

Lemma fromEntries_fresh (entries : list (string * A)) o :
  NoDup (o.*1 ++ entries.*1) ->
  foldl (fun o e => set e.1 e.2 o) o entries = o ++ entries.
Proof.
  revert o. induction entries as [|[k v] entries IH]; intros o Hnd;
    [by rewrite app_nil_r|].
  cbn [foldl fst snd]. cbn [fmap list_fmap fst] in Hnd.
  rewrite set_fresh.
  - rewrite IH; [by rewrite <- app_assoc|].
    rewrite fmap_app. cbn [fmap list_fmap fst]. by rewrite <- app_assoc.
  - apply NoDup_app in Hnd as (_ & Hd & _). intros Hk. apply (Hd k Hk). left.
Qed.

(** Entries with distinct keys make the object that has them, in their
    order. *)
Lemma Object_fromEntries_distinct (entries : list (string * A)) :
  NoDup entries.*1 -> Object_fromEntries entries = entries.
Proof. intros Hnd. unfold Object_fromEntries. by rewrite fromEntries_fresh. Qed.

(** Without a key that is an array index, the properties are enumerated as
    they were created. *)
Lemma Object_keys_named o : Forall (fun k => ~ is_index k) o.*1 -> Object_keys o = o.*1.
Proof.
  intros H. unfold Object_keys.
  assert (indexed_keys o.*1 = []) as ->.
  { induction H as [|k ks Hk _ IH]; [done|].
    unfold indexed_keys in *. cbn [omap list_omap].
    unfold is_index in Hk. destruct (array_index k); [by destruct Hk|done]. }
  cbn. unfold named_keys.
  induction H as [|k ks Hk _ IH]; [done|].
  rewrite filter_cons, decide_True by done. by rewrite IH.
Qed.

Lemma Object_entries_named o :
  well_formed o -> Forall (fun k => ~ is_index k) o.*1 -> Object_entries o = o.
Proof.
  intros Hwf H. unfold Object_entries. rewrite (Object_keys_named o H).
  apply entries_of_pairs. intros k v. by apply get_Some.
Qed.

End Objects.

Section SortObjectEntries.
Import JS utilsHelpers.

Variable localeCompare : string -> string -> Z.

Abbreviation sortEntries := (sortObjectEntries localeCompare).

Lemma sortObjectEntries_result (obj : JsObject ConfigValue) sortKey r :
  well_formed obj ->
  sortEntries obj sortKey = Some r ->
  r = Object_entries obj
  \/ r = CharacterSheetItems.Array_sort (compare_entries localeCompare sortKey)
           (Object_entries obj).
Proof.
  intros Hwf. unfold sortObjectEntries.
  pose proof (Object_entries_Permutation obj Hwf) as Hp.
  assert (NoDup (Object_entries obj).*1) as Hnd by (by rewrite Hp).
  case_bool_decide.
  - intros [= <-]. left. by apply Object_fromEntries_distinct.
  - destruct (forallb _ _); [|done]. intros [= <-]. right.
    apply Object_fromEntries_distinct.
    by rewrite (Array_sort_Permutation _ (Object_entries obj)).
Qed.

Lemma sortObjectEntries_same (obj : JsObject ConfigValue) sortKey r :
  well_formed obj ->
  sortEntries obj sortKey = Some r ->
  r ≡ₚ obj /\ well_formed r /\ forall k, get k r = get k obj.
Proof.
  intros Hwf Hr.
  assert (r ≡ₚ obj) as Hp.
  { destruct (sortObjectEntries_result obj sortKey r Hwf Hr) as [->| ->].
    - by apply Object_entries_Permutation.
    - rewrite (Array_sort_Permutation _ (Object_entries obj)).
      by apply Object_entries_Permutation. }
  assert (well_formed r) as Hwf' by (unfold well_formed in *; by rewrite Hp).
  split; [done|]. split; [done|]. intros k. by apply get_Permutation.
Qed.

(** Sorting an object keeps its properties: the result has the same keys
    with the same values, and reads like the original. *)
Theorem sortObjectEntries_keeps_entries (obj : JsObject ConfigValue) sortKey r :
  well_formed obj ->
  sortEntries obj sortKey = Some r ->
  r ≡ₚ obj /\ well_formed r /\ forall k, get k r = get k obj.
Proof. apply sortObjectEntries_same. Qed.

Lemma short_list_sorted {B} (R : B -> B -> Prop) (l : list B) :
  (length l < 2)%nat -> StronglySorted R l.
Proof.
  destruct l as [|x [|y l]]; cbn; intros H; [constructor| |lia].
  by repeat constructor.
Qed.

(** When no key of the object is an array index and the comparison of the
    runtime is consistent, the entries of the result are enumerated in the
    order of their labels. *)
Theorem sortObjectEntries_orders_names (obj : JsObject ConfigValue) sortKey r :
  (forall a b, localeCompare a b <= 0 \/ localeCompare b a <= 0) ->
  (forall a b c, localeCompare a b <= 0 -> localeCompare b c <= 0 ->
                 localeCompare a c <= 0) ->
  well_formed obj ->
  Forall (fun k => ~ is_index k) obj.*1 ->
  sortEntries obj sortKey = Some r ->
  StronglySorted
    (fun a b => compare_entries localeCompare sortKey a b <= 0)
    (Object_entries r).
Proof.
  intros Htotal Htrans Hwf Hnamed Hr.
  destruct (sortObjectEntries_same obj sortKey r Hwf Hr) as (Hp & Hwf' & _).
  assert (Forall (fun k => ~ is_index k) r.*1) as Hnamed' by (by rewrite Hp).
  rewrite (Object_entries_named r Hwf' Hnamed').
  revert Hr. unfold sortObjectEntries.
  rewrite (Object_entries_named obj Hwf Hnamed).
  case_bool_decide as Hlen.
  - intros [= <-]. rewrite Object_fromEntries_distinct by done.
    by apply short_list_sorted.
  - destruct (forallb _ _); [|done]. intros [= <-].
    rewrite Object_fromEntries_distinct
      by (by rewrite (Array_sort_Permutation _ obj)).
    apply Array_sort_sorted; unfold compare_entries; eauto.
Qed.

Lemma Object_keys_of_indices {B C} (o1 : JsObject B) (o2 : JsObject C) :
  well_formed o1 ->
  o1.*1 ≡ₚ o2.*1 ->
  Forall is_index o1.*1 ->
  Object_keys o1 = Object_keys o2.
Proof.
  intros Hwf Hp Hidx.
  assert (well_formed o2) as Hwf2 by (unfold well_formed in *; by rewrite <- Hp).
  assert (Forall is_index o2.*1) as Hidx2 by (by rewrite <- Hp).
  destruct (Object_keys_ascending o1 Hwf Hidx) as (ns1 & E1 & Hs1).
  destruct (Object_keys_ascending o2 Hwf2 Hidx2) as (ns2 & E2 & Hs2).
  set (R := fun a b : string =>
              exists n m, a = pretty n /\ b = pretty m /\ (n < m)%N).
  apply (StronglySorted_unique_strong R).
  - intros x1 x2 _ _ (n & m & -> & -> & Hlt) (n' & m' & En & Em & Hlt').
    apply (inj pretty) in En, Em. subst. lia.
  - rewrite E1. apply (StronglySorted_fmap pretty N.lt); [|done].
    intros n m Hlt. by exists n, m.
  - rewrite E2. apply (StronglySorted_fmap pretty N.lt); [|done].
    intros n m Hlt. by exists n, m.
  - by rewrite (Object_keys_Permutation o1), (Object_keys_Permutation o2).
Qed.

(** When every key of the object is an array index (as in a table by level),
    sorting has no effect on the order in which the entries are enumerated:
    they come by ascending key, whatever their labels. *)
Theorem sortObjectEntries_leaves_indices (obj : JsObject ConfigValue) sortKey r :
  well_formed obj ->
  Forall is_index obj.*1 ->
  sortEntries obj sortKey = Some r ->
  Object_entries r = Object_entries obj.
Proof.
  intros Hwf Hidx Hr.
  destruct (sortObjectEntries_same obj sortKey r Hwf Hr) as (Hp & Hwf' & Hget).
  unfold Object_entries.
  rewrite (Object_keys_of_indices r obj); [|done|by rewrite Hp|by rewrite Hp].
  apply list_omap_ext, Forall2_same_length_lookup. split; [done|].
  intros i k k' Hk Hk'. rewrite Hk in Hk'. injection Hk' as <-. by rewrite Hget.
Qed.

End SortObjectEntries.

(** ** utils: pre-localization *)

Section SetProperty.
Import JS utilsHelpers.

Context {A : Type}.
Implicit Types o : JsObject A.

Lemma set_keys k (v : A) o : k ∈ o.*1 -> (set k v o).*1 = o.*1.
Proof.
  induction o as [|[k' v'] o IH]; intros Hk; [by apply elem_of_nil in Hk|].
  cbn [set]. case_bool_decide as E.
  - by subst.
  - cbn [fmap list_fmap fst] in *. f_equal. apply IH.
    apply elem_of_cons in Hk as [->|Hk]; [done|done].
Qed.

Lemma get_set_eq k (v : A) o : get k (set k v o) = Some v.
Proof.
  induction o as [|[k' v'] o IH]; cbn [set get].
  - by rewrite bool_decide_eq_true_2.
  - case_bool_decide as E; cbn [get].
    + by rewrite bool_decide_eq_true_2.
    + by rewrite bool_decide_eq_false_2.
Qed.

Lemma get_set_ne k k' (v : A) o : k' <> k -> get k' (set k v o) = get k' o.
Proof.
  intros Hne. induction o as [|[k0 v0] o IH]; cbn [set get].
  - by rewrite bool_decide_eq_false_2.
  - case_bool_decide as E; cbn [get].
    + subst. by rewrite !bool_decide_eq_false_2 by done.
    + by rewrite IH.
Qed.

Lemma get_is_Some k o : k ∈ o.*1 -> exists v, get k o = Some v.
Proof.
  induction o as [|[k' v'] o IH]; intros Hk; [by apply elem_of_nil in Hk|].
  cbn [get]. case_bool_decide as E; [by eexists|].
  apply IH. cbn [fmap list_fmap fst] in Hk.
  apply elem_of_cons in Hk as [->|Hk]; done.
Qed.

(** Two objects with the same keys in the same order that read the same are
    the same object. *)
Lemma object_ext o1 o2 :
  NoDup o1.*1 -> o1.*1 = o2.*1 -> (forall k, get k o1 = get k o2) -> o1 = o2.
Proof.
  revert o2. induction o1 as [|[k v] o1 IH]; intros [|[k2 v2] o2] Hnd Hk Hget;
    try done.
  cbn [fmap list_fmap fst] in Hk, Hnd. injection Hk as <- Hk.
  apply NoDup_cons in Hnd as [Hfresh Hnd].
  pose proof (Hget k) as Hv. cbn [get] in Hv.
  rewrite !bool_decide_eq_true_2 in Hv by done. injection Hv as <-.
  f_equal. apply IH; [done..|]. intros k'.
  destruct (decide (k = k')) as [<-|Hne].
  - rewrite !get_None; [done|by rewrite <- Hk|done].
  - specialize (Hget k'). cbn [get] in Hget.
    by rewrite !bool_decide_eq_false_2 in Hget by done.
Qed.

Lemma get_fmap {B} (f : A -> B) k o :
  get k ((fun e => (e.1, f e.2)) <$> o) = f <$> get k o.
Proof.
  induction o as [|[k' v'] o IH]; [done|].
  cbn [fmap list_fmap get fst snd]. by case_bool_decide.
Qed.

Lemma keys_fmap {B} (f : A -> B) o : ((fun e => (e.1, f e.2)) <$> o).*1 = o.*1.
Proof.
  induction o as [|[k v] o IH]; [done|].
  cbn [fmap list_fmap fst snd] in *. by rewrite IH.
Qed.

End SetProperty.

Section Localize.
Import JS utilsHelpers.

Variable localize : string -> string.

Lemma localize_loop_result keys entries cur errors :
  no_keys keys = true \/ Forall (fun e => not_null e.2) entries ->
  NoDup entries.*1 ->
  (forall k v, get k entries = Some v -> get k cur = Some v) ->
  exists cur',
    localize_loop localize keys entries cur errors
    = (None, cur', errors ++ flat_map (entry_errors keys) entries)
    /\ cur'.*1 = cur.*1
    /\ forall k, get k cur'
                 = match get k entries with
                   | Some v => Some (localized_value localize keys v)
                   | None => get k cur
                   end.
Proof.
  intros Hnull. revert cur errors.
  induction entries as [|[k v] entries IH]; intros cur errors Hnd Hin.
  - exists cur. by rewrite app_nil_r.
  - cbn [fmap list_fmap fst] in Hnd. apply NoDup_cons in Hnd as [Hfresh Hnd].
    assert (no_keys keys = true \/ Forall (fun e => not_null e.2) entries) as Hnull'.
    { destruct Hnull as [H|H]; [by left|right]. by apply Forall_cons in H as [_ H]. }
    assert (get k cur = Some v) as Hk.
    { apply Hin. cbn [get]. by rewrite bool_decide_eq_true_2. }
    assert (k ∈ cur.*1) as Hkin.
    { apply get_elem_of in Hk. apply list_elem_of_fmap. by exists (k, v). }
    assert (forall (v' : ConfigValue) k0 v0,
              get k0 entries = Some v0 -> get k0 (set k v' cur) = Some v0) as Hin'.
    { intros v' k0 v0 H0. rewrite get_set_ne.
      - apply Hin. cbn [get]. rewrite bool_decide_eq_false_2; [done|].
        intros ->. apply Hfresh. apply get_elem_of in H0.
        apply list_elem_of_fmap. by exists (k0, v0).
      - intros ->. apply Hfresh. apply get_elem_of in H0.
        apply list_elem_of_fmap. by exists (k, v0). }
    assert (forall k0 v0, get k0 entries = Some v0 -> get k0 cur = Some v0) as Hin0.
    { intros k0 v0 H0. apply Hin. cbn [get].
      rewrite bool_decide_eq_false_2; [done|].
      intros ->. apply Hfresh. apply get_elem_of in H0.
      apply list_elem_of_fmap. by exists (k0, v0). }
    (* the object after the turn for (k, v), and what the turn logs *)
    assert (exists cur1,
      localize_loop localize keys ((k, v) :: entries) cur errors
      = localize_loop localize keys entries cur1 (errors ++ entry_errors keys (k, v))
      /\ cur1.*1 = cur.*1
      /\ get k cur1 = Some (localized_value localize keys v)
      /\ (forall k0, k0 <> k -> get k0 cur1 = get k0 cur)
      /\ (forall k0 v0, get k0 entries = Some v0 -> get k0 cur1 = Some v0))
      as (cur1 & Hstep & Hkeys & Hgetk & Hother & Hin1).
    { unfold entry_errors, localized_value. cbn [localize_loop fst snd].
      destruct v as [s|fields| |typeof].
      - eexists. rewrite app_nil_r. split; [done|].
        split; [by apply set_keys|]. split; [apply get_set_eq|].
        split; [intros; by apply get_set_ne|apply Hin'].
      - destruct (no_keys keys).
        + exists cur. split; [done|]. split; [done|]. split; [exact Hk|].
          split; [done|exact Hin0].
        + eexists. rewrite app_nil_r. split; [done|].
          split; [by apply set_keys|]. split; [apply get_set_eq|].
          split; [intros; by apply get_set_ne|apply Hin'].
      - destruct (no_keys keys) eqn:Hno.
        + exists cur. split; [done|]. split; [done|]. split; [exact Hk|].
          split; [done|exact Hin0].
        + destruct Hnull as [H|H]; [done|].
          apply Forall_cons in H as [H _]. by destruct H.
      - exists cur. split; [done|]. split; [done|]. split; [exact Hk|].
        split; [done|exact Hin0]. }
    destruct (IH Hnull' cur1 (errors ++ entry_errors keys (k, v)) Hnd Hin1)
      as (cur' & Hloop & Hkeys' & Hget').
    exists cur'. split; [|split].
    + rewrite Hstep, Hloop. cbn [flat_map]. by rewrite <- app_assoc.
    + by rewrite Hkeys', Hkeys.
    + intros k0. rewrite Hget'. cbn [get].
      case_bool_decide as E.
      * subst k0. rewrite get_None; [done|].
        intros Hk0. apply Hfresh. done.
      * destruct (get k0 entries); [done|]. apply Hother. done.
Qed.

(** Localization keeps the object's keys and their order, and replaces the
    values in place: a string by its translation, an object by the object
    with the listed fields translated, anything else by itself.  This holds
    when no value is null or no key is listed; the errors written to the
    console are those of the entries in the order of [Object.entries]. *)
Theorem localizeObject_in_place (obj : JsObject ConfigValue)
    (keys : option (list string)) :
  well_formed obj ->
  no_keys keys = true \/ Forall (fun e => not_null e.2) obj ->
  _localizeObject localize obj keys
  = (None,
     (fun e => (e.1, localized_value localize keys e.2)) <$> obj,
     flat_map (entry_errors keys) (Object_entries obj)).
Proof.
  intros Hwf Hnull. unfold _localizeObject.
  pose proof (Object_entries_Permutation obj Hwf) as Hp.
  assert (well_formed (Object_entries obj)) as Hwfe
    by (unfold well_formed in *; by rewrite Hp).
  destruct (localize_loop_result keys (Object_entries obj) obj []) as
    (cur' & Hloop & Hkeys & Hget).
  - destruct Hnull as [H|H]; [by left|right]. by rewrite Hp.
  - exact Hwfe.
  - intros k v Hk. rewrite <- Hk. symmetry. by apply get_Permutation.
  - rewrite Hloop. cbn [app]. f_equal. f_equal.
    apply object_ext.
    + by rewrite Hkeys.
    + by rewrite Hkeys, keys_fmap.
    + intros k. rewrite Hget, get_fmap.
      rewrite (get_Permutation k _ obj Hwfe Hp).
      by destruct (get k obj).
Qed.

Lemma localize_loop_null keys entries cur errors k :
  no_keys keys = false ->
  (k, CNull) ∈ entries ->
  (localize_loop localize keys entries cur errors).1.1
  = Some (TypeError "v[key]").
Proof.
  intros Hno. revert cur errors.
  induction entries as [|[k' v] entries IH]; intros cur errors Hin;
    [by apply elem_of_nil in Hin|].
  cbn [localize_loop]. rewrite Hno.
  destruct v; try done;
    (apply elem_of_cons in Hin as [[=]|Hin]; by apply IH).
Qed.

(** A null value stops the localization with a TypeError when keys are
    listed (a field of null is read). *)
Theorem localizeObject_null_value (obj : JsObject ConfigValue)
    (keys : option (list string)) (k : string) :
  well_formed obj ->
  no_keys keys = false ->
  (k, CNull) ∈ obj ->
  (_localizeObject localize obj keys).1.1 = Some (TypeError "v[key]").
Proof.
  intros Hwf Hno Hin. unfold _localizeObject.
  apply (localize_loop_null _ _ _ _ k); [done|].
  by rewrite (Object_entries_Permutation obj Hwf).
Qed.

End Localize.

(** ** utils: the index of a document *)

Section IndexFromUuid.
Import JS RegExp utilsHelpers.

Lemma split_dot_free (s : string) : dot_free s = true -> split "."%char s = [s].
Proof.
  induction s as [|c s IH]; [done|]. unfold dot_free. cbn [all_chars split].
  intros H. apply andb_true_iff in H as [Hc Hs].
  apply negb_true_iff in Hc. rewrite Hc. by rewrite (IH Hs).
Qed.

Lemma split_dot (a b : string) :
  dot_free a = true ->
  split "."%char (a +:+ "." +:+ b) = a :: split "."%char b.
Proof.
  induction a as [|c a IH]; [done|]. unfold dot_free. cbn [all_chars].
  intros H. apply andb_true_iff in H as [Hc Hs]. apply negb_true_iff in Hc.
  change (String c a +:+ "." +:+ b) with (String c (a +:+ "." +:+ b)).
  cbn [split]. rewrite Hc. by rewrite (IH Hs).
Qed.

Lemma split_not_nil (s : string) : split "."%char s <> [].
Proof.
  destruct s as [|c s]; [done|]. cbn [split].
  destruct (Ascii.eqb c "."); [done|]. by destruct (split "."%char s).
Qed.

Variable Index : Type.
Variable packs : gmap string (gmap string Index).
Variable collections : gmap string (gmap string Index).

Abbreviation index_of := (indexFromUuid Index packs collections).

(** The UUID of a document of a compendium pack finds the entry of the
    document in the index of the pack; parts after the document's id (the
    path of an embedded document) are not read. *)
Theorem indexFromUuid_compendium (scope packName id rest : string) :
  dot_free scope = true ->
  dot_free packName = true ->
  dot_free id = true ->
  index_of ("Compendium." +:+ scope +:+ "." +:+ packName +:+ "." +:+ id)
  = Return (packs !! (scope +:+ "." +:+ packName) ≫= (fun index => index !! id))
  /\ index_of ("Compendium." +:+ scope +:+ "." +:+ packName +:+ "." +:+ id
               +:+ "." +:+ rest)
     = index_of ("Compendium." +:+ scope +:+ "." +:+ packName +:+ "." +:+ id).
Proof.
  intros Hs Hp Hi.
  assert (forall tail,
            split "."%char ("Compendium." +:+ scope +:+ "." +:+ packName +:+ "."
                            +:+ tail)
            = "Compendium" :: scope :: packName :: split "."%char tail) as Hsplit.
  { intros tail.
    change ("Compendium." +:+ scope +:+ "." +:+ packName +:+ "." +:+ tail)
      with ("Compendium" +:+ "." +:+ (scope +:+ "." +:+ (packName +:+ "." +:+ tail))).
    by rewrite !split_dot. }
  unfold indexFromUuid. rewrite !Hsplit.
  rewrite split_dot by done. rewrite split_dot_free by done.
  cbn [lookup list_lookup]. rewrite !bool_decide_eq_true_2 by done.
  split; [|done]. reflexivity.
Qed.

(** The UUID of a document embedded in a world document (three parts or
    more, not of a compendium) finds nothing, whatever the collections
    hold. *)
Theorem indexFromUuid_embedded (docName id rest : string) :
  dot_free docName = true ->
  dot_free id = true ->
  docName <> "Compendium" ->
  index_of (docName +:+ "." +:+ id +:+ "." +:+ rest) = Return None.
Proof.
  intros Hd Hi Hne. unfold indexFromUuid.
  rewrite !split_dot by done.
  cbn [lookup list_lookup length].
  rewrite bool_decide_eq_false_2 by congruence.
  rewrite bool_decide_eq_false_2; [done|].
  pose proof (split_not_nil rest). destruct (split "."%char rest); [done|].
  cbn. lia.
Qed.

(** The UUID of a world document finds the document in the collection of
    its type; a type without a collection fails with a TypeError. *)
Theorem indexFromUuid_world (docName id : string) :
  dot_free docName = true ->
  dot_free id = true ->
  docName <> "Compendium" ->
  index_of (docName +:+ "." +:+ id)
  = match collections !! docName with
    | Some collection => Return (collection !! id)
    | None => Throw (TypeError "CONFIG[docName].collection")
    end.
Proof.
  intros Hd Hi Hne. unfold indexFromUuid.
  rewrite split_dot by done. rewrite split_dot_free by done.
  cbn [lookup list_lookup length to_key].
  rewrite bool_decide_eq_false_2 by congruence.
  rewrite bool_decide_eq_true_2 by lia. done.
Qed.

End IndexFromUuid.

(** ** utils: synchronizing the powers of an actor *)

Section SynchronizePowers.
Import utilsHelpers.





End SynchronizePowers.

(** ** Data models: migrations *)

Section ItemMigrations.
Import ItemData.

Variable Num : Type.
Variable number_is_falsy : Num -> bool.
Variable Number_isNumeric : JsVal Num -> bool.
Variable Number : JsVal Num -> Num.
Variable NONE ATTUNED : Num.

Abbreviation equippable_migrateData :=
  (Equippable_migrateData Num number_is_falsy NONE ATTUNED).
Abbreviation equipment_migrateOwn :=
  (Equipment_migrateOwn Num Number_isNumeric Number).

(** Migrating the data of an equippable item twice is migrating it once;
    after the migration [equipped] is neither null nor undefined, an
    attunement there was is kept, and a legacy [attuned] has given one. *)
Theorem Equippable_migrateData_idempotent (source : EquippableSource Num) :
  let migrated := equippable_migrateData source in
  equippable_migrateData migrated = migrated
  /\ is_null Num (equipped Num migrated) = false
  /\ is_undefined Num (equipped Num migrated) = false
  /\ (is_undefined Num (attunement Num source) = false ->
      attunement Num migrated = attunement Num source)
  /\ (is_undefined Num (attuned Num source) = false ->
      is_undefined Num (attunement Num migrated) = false).
Proof.
  destruct source as [a t e]. unfold Equippable_migrateData, migrateAttunement,
    migrateEquipped. cbn [attuned attunement equipped].
  destruct a, t, e; cbn; repeat split; try done.
Qed.

Lemma is_the_string_retyped (v : JsVal Num) :
  is_the_string Num "bonus"
    (if is_the_string Num "bonus" v then VString "trinket" else v) = false.
Proof. destruct (is_the_string Num "bonus" v) eqn:E; [done|exact E]. Qed.

(** Migrating the armor and the strength of an equipment source a second time
    changes nothing, and the migrated source has an armor object whose type
    is not "bonus" and whose dex cap is not the blank string, and a strength
    that is not the blank string; [Number.isNumeric(null)] is false. *)
Theorem Equipment_migrateOwn_idempotent (source : EquipmentSource Num) :
  Number_isNumeric VNull = false ->
  let migrated := equipment_migrateOwn source in
  equipment_migrateOwn migrated = migrated
  /\ (exists a,
        armor Num migrated = Some a
        /\ is_the_string Num "bonus" (armor_type Num a) = false
        /\ is_the_string Num "" (armor_dex Num a) = false)
  /\ is_the_string Num "" (strength Num migrated) = false.
Proof.
  intros Hnull. destruct source as [a s].
  unfold Equipment_migrateOwn, migrateStrength, migrateArmor.
  cbn [armor strength].
  set (a0 := default {| armor_type := VUndefined; armor_value := VUndefined;
                        armor_dex := VUndefined |} a).
  destruct a0 as [ty val dex]. cbn [armor_type armor_value armor_dex default].
  pose proof (is_the_string_retyped ty) as Hty.
  destruct s as [| | | |s]; destruct dex as [| | | |d];
    cbn [armor strength armor_type armor_value armor_dex default is_the_string Datatypes.id];
    repeat (case_bool_decide; subst;
            cbn [armor strength armor_type armor_value armor_dex default is_the_string Datatypes.id]);
    rewrite ?Hnull;
    cbn [armor strength armor_type armor_value armor_dex default is_the_string Datatypes.id];
    repeat match goal with
           | |- context [Number_isNumeric (VString ?x)] =>
               let E := fresh "E" in
               destruct (Number_isNumeric (VString x)) eqn:E;
               cbn [armor strength armor_type armor_value armor_dex default is_the_string Datatypes.id];
               rewrite ?E, ?Hnull
           end;
    cbn [armor strength armor_type armor_value armor_dex default is_the_string Datatypes.id];
    rewrite ?Hty, ?bool_decide_eq_false_2 by done;
    rewrite ?Hnull.
  all: try (split; [reflexivity|split; [eexists; split; [reflexivity|split; [exact Hty|reflexivity]]|reflexivity]]).
  all: try (split; [|split; [eexists; split; [reflexivity|split; [exact Hty|cbn; by rewrite ?bool_decide_eq_false_2]]|cbn; by rewrite ?bool_decide_eq_false_2]]).
  all: rewrite ?E, ?E0; reflexivity.
Qed.

End ItemMigrations.

Section ItemMigrationsExamples.
Import ItemData.

Example shield_migrated :
  Equipment_migrateOwn Z sample_isNumeric sample_Number old_shield
  = {| armor := Some {| armor_type := VString "trinket"; armor_value := VNumber 2;
                        armor_dex := VNull |};
       strength := VNumber 13 |}.
Proof. reflexivity. Qed.

Lemma Equipment_migrateOwn_idempotent_witness :
  let migrated := Equipment_migrateOwn Z sample_isNumeric sample_Number old_shield in
  Equipment_migrateOwn Z sample_isNumeric sample_Number migrated = migrated
  /\ (exists a,
        armor Z migrated = Some a
        /\ is_the_string Z "bonus" (armor_type Z a) = false
        /\ is_the_string Z "" (armor_dex Z a) = false)
  /\ is_the_string Z "" (strength Z migrated) = false.
Proof.
  apply (Equipment_migrateOwn_idempotent Z sample_isNumeric sample_Number old_shield).
  reflexivity.
Defined.

End ItemMigrationsExamples.

(** ** utils: examples *)

Section UtilsExamples.
Import JS utilsHelpers.

Example abilities_sorted :
  sortObjectEntries length_compare sample_abilities None
  = Some [("con", CString "Stamina"); ("str", CString "Strength");
          ("dex", CString "Dexterity")].
Proof. vm_compute. reflexivity. Qed.

Lemma sortObjectEntries_keeps_entries_witness :
  sortObjectEntries length_compare sample_abilities None
  = Some [("con", CString "Stamina"); ("str", CString "Strength");
          ("dex", CString "Dexterity")]
  /\ ([("con", CString "Stamina"); ("str", CString "Strength");
       ("dex", CString "Dexterity")] ≡ₚ sample_abilities
      /\ well_formed [("con", CString "Stamina"); ("str", CString "Strength");
                      ("dex", CString "Dexterity")]
      /\ forall k, get k [("con", CString "Stamina"); ("str", CString "Strength");
                          ("dex", CString "Dexterity")]
                   = get k sample_abilities).
Proof.
  split; [vm_compute; reflexivity|].
  apply (sortObjectEntries_keeps_entries length_compare sample_abilities None).
  - unfold well_formed. apply (bool_decide_unpack _). vm_compute. exact I.
  - vm_compute. reflexivity.
Defined.

Lemma sortObjectEntries_orders_names_witness :
  sortObjectEntries length_compare sample_abilities None
  = Some [("con", CString "Stamina"); ("str", CString "Strength");
          ("dex", CString "Dexterity")]
  /\ StronglySorted
       (fun a b => compare_entries length_compare None a b <= 0)
       (Object_entries [("con", CString "Stamina"); ("str", CString "Strength");
                        ("dex", CString "Dexterity")]).
Proof.
  split; [vm_compute; reflexivity|].
  apply (sortObjectEntries_orders_names length_compare sample_abilities None).
  - intros a b. unfold length_compare. lia.
  - intros a b c. unfold length_compare. lia.
  - unfold well_formed. apply (bool_decide_unpack _). vm_compute. exact I.
  - apply (bool_decide_unpack _). vm_compute. exact I.
  - vm_compute. reflexivity.
Defined.

Example levels_not_reordered :
  sortObjectEntries length_compare sample_by_level None
  = Some [("2", CString "Adept"); ("1", CString "Initiate")].
Proof. vm_compute. reflexivity. Qed.

Lemma sortObjectEntries_leaves_indices_witness :
  sortObjectEntries length_compare sample_by_level None
  = Some [("2", CString "Adept"); ("1", CString "Initiate")]
  /\ Object_entries [("2", CString "Adept"); ("1", CString "Initiate")]
     = Object_entries sample_by_level.
Proof.
  split; [vm_compute; reflexivity|].
  apply (sortObjectEntries_leaves_indices length_compare sample_by_level None).
  - unfold well_formed. apply (bool_decide_unpack _). vm_compute. exact I.
  - apply (bool_decide_unpack _). vm_compute. exact I.
  - vm_compute. reflexivity.
Defined.

Lemma localizeObject_in_place_witness :
  _localizeObject sample_localize sample_table (Some ["label"])
  = (None,
     (fun e => (e.1, localized_value sample_localize (Some ["label"]) e.2))
       <$> sample_table,
     flat_map (entry_errors (Some ["label"])) (Object_entries sample_table)).
Proof.
  apply (localizeObject_in_place sample_localize sample_table (Some ["label"])).
  - unfold well_formed. apply (bool_decide_unpack _). vm_compute. exact I.
  - right. unfold sample_table, not_null. repeat constructor; discriminate.
Defined.

Example table_localized :
  _localizeObject sample_localize sample_table (Some ["label"])
  = (None,
     [("acid", CString "<SW5E.DamageAcid>");
      ("fire", CObject [("label", "<SW5E.DamageFire>"); ("icon", "fire.svg")]);
      ("count", COther "number")],
     [NotStringOrObject "number" "count"]).
Proof. vm_compute. reflexivity. Qed.

Lemma localizeObject_null_value_witness :
  (_localizeObject sample_localize sample_table_with_null (Some ["label"])).1.1
  = Some (TypeError "v[key]").
Proof.
  apply (localizeObject_null_value sample_localize sample_table_with_null
           (Some ["label"]) "none").
  - unfold well_formed. apply (bool_decide_unpack _). vm_compute. exact I.
  - reflexivity.
  - unfold sample_table_with_null. right. left.
Defined.

Lemma indexFromUuid_compendium_witness :
  indexFromUuid string sample_packs sample_collections "Compendium.sw5e.forcepowers.p1"
  = Return (sample_packs !! "sw5e.forcepowers" ≫= (fun index => index !! "p1"))
  /\ indexFromUuid string sample_packs sample_collections
       "Compendium.sw5e.forcepowers.p1.Item.x"
     = indexFromUuid string sample_packs sample_collections
         "Compendium.sw5e.forcepowers.p1".
Proof.
  apply (indexFromUuid_compendium string sample_packs sample_collections
           "sw5e" "forcepowers" "p1" "Item.x"); reflexivity.
Defined.

Lemma indexFromUuid_embedded_witness :
  indexFromUuid string sample_packs sample_collections "Actor.a1.Item.i1"
  = Return None.
Proof.
  apply (indexFromUuid_embedded string sample_packs sample_collections
           "Actor" "a1" "Item.i1"); [reflexivity|reflexivity|discriminate].
Defined.

Lemma indexFromUuid_world_witness :
  indexFromUuid string sample_packs sample_collections "Actor.a1"
  = match sample_collections !! "Actor" with
    | Some collection => Return (collection !! "a1")
    | None => Throw (TypeError "CONFIG[docName].collection")
    end.
Proof.
  apply (indexFromUuid_world string sample_packs sample_collections "Actor" "a1");
    [reflexivity|reflexivity|discriminate].
Defined.

Example index_lookups :
  indexFromUuid string sample_packs sample_collections "Compendium.sw5e.forcepowers.p1"
  = Return (Some "Burst")
  /\ indexFromUuid string sample_packs sample_collections "Actor.a1"
     = Return (Some "Guardian")
  /\ indexFromUuid string sample_packs sample_collections "Scene.s1"
     = Throw (TypeError "CONFIG[docName].collection")
  /\ indexFromUuid string sample_packs sample_collections "Actor"
     = Return None.
Proof. vm_compute. repeat split. Qed.

End UtilsExamples.

(** ** ItemGrantConfig: whether the power configuration is shown *)

Section ShowPowerConfig.
Import ItemGrantConfigData.

(** The items are read in order up to the first power.  When the items
    before a UUID all resolve to items that are no powers, a UUID that does
    not resolve raises a TypeError, a power answers true whatever follows
    it (resolved or not), and another item leaves the answer to the rest;
    without a power among resolved items the answer is false. *)
Theorem showPowerConfig_stops_at_first_power
    (fromUuidSync : string -> option Item5e) (pre : list string) (uuid : string)
    (post : list string) :
  Forall (fun u => exists i, fromUuidSync u = Some i /\ item_type i <> "power") pre ->
  showPowerConfig fromUuidSync pre = Return false
  /\ showPowerConfig fromUuidSync (pre ++ uuid :: post)
     = match fromUuidSync uuid with
       | None => Throw (TypeError "i.type")
       | Some i =>
           if bool_decide (item_type i = "power") then Return true
           else showPowerConfig fromUuidSync post
       end.
Proof.
  unfold showPowerConfig. induction 1 as [|u pre (i & Hu & Hi) _ [IH1 IH2]].
  - split; [done|]. cbn. by destruct (fromUuidSync uuid).
  - cbn [fmap list_fmap app some_power] in *. rewrite Hu.
    cbn [some_power]. by rewrite bool_decide_eq_false_2.
Qed.

End ShowPowerConfig.

Section ShowPowerConfigExamples.
Import ItemGrantConfigData.

Lemma showPowerConfig_stops_at_first_power_witness :
  showPowerConfig sample_fromUuidSync ["Item.feat"] = Return false
  /\ showPowerConfig sample_fromUuidSync
       (["Item.feat"] ++ "Item.power" :: ["Item.gone"])
     = match sample_fromUuidSync "Item.power" with
       | None => Throw (TypeError "i.type")
       | Some i =>
           if bool_decide (item_type i = "power") then Return true
           else showPowerConfig sample_fromUuidSync ["Item.gone"]
       end.
Proof.
  apply (showPowerConfig_stops_at_first_power sample_fromUuidSync ["Item.feat"]
           "Item.power" ["Item.gone"]).
  constructor; [|constructor]. exists (feat_item "class" ""). by split.
Defined.

Example power_config_shown :
  showPowerConfig sample_fromUuidSync ["Item.feat"; "Item.power"; "Item.gone"]
  = Return true
  /\ showPowerConfig sample_fromUuidSync ["Item.feat"; "Item.gone"; "Item.power"]
     = Throw (TypeError "i.type")
  /\ showPowerConfig sample_fromUuidSync [] = Return false.
Proof. repeat split. Qed.

End ShowPowerConfigExamples.

(** ** AdvancementFlow: the identifier of the application *)

Section FlowId.
Import RegExp AdvancementFlow AdvancementFlowId.

Lemma pretty_N_char_digit (x : N) : in_range 48 57 (pretty_N_char x) = true.
Proof.
  unfold pretty_N_char. repeat case_match; done.
Qed.

Lemma pretty_N_go_digits (x : N) (s : string) :
  all_chars (in_range 48 57) s = true ->
  all_chars (in_range 48 57) (pretty_N_go x s) = true.
Proof.
  revert s. induction (N.lt_wf_0 x) as [x _ IH]. intros s Hs.
  destruct (decide (x = 0)%N) as [->|Hx]; [by rewrite pretty_N_go_0|].
  rewrite pretty_N_go_step by lia. apply IH.
  - apply N.div_lt; lia.
  - cbn [all_chars]. by rewrite pretty_N_char_digit, Hs.
Qed.

Lemma pretty_N_digits (n : N) : all_chars (in_range 48 57) (pretty n) = true.
Proof.
  unfold pretty, pretty_N. case_decide; [done|]. by apply pretty_N_go_digits.
Qed.

Lemma no_dash_in_level (n : N) (s1 s2 : string) : pretty n <> s1 +:+ "-" +:+ s2.
Proof.
  intros E. pose proof (pretty_N_digits n) as H. rewrite E in H.
  rewrite all_chars_app in H. apply andb_true_iff in H as [_ H].
  cbn in H. done.
Qed.

Lemma suffix_level_inj (a b : string) (n m : N) :
  a +:+ "-" +:+ pretty n = b +:+ "-" +:+ pretty m -> a = b /\ n = m.
Proof.
  revert b. induction a as [|c a IH]; intros [|c' b] E.
  - change (String "-" (pretty n) = String "-" (pretty m)) in E.
    injection E as E. apply (inj pretty) in E. by split.
  - change (String "-" (pretty n) = String c' (b +:+ "-" +:+ pretty m)) in E.
    injection E as <- E. by apply no_dash_in_level in E.
  - change (String c (a +:+ "-" +:+ pretty n) = String "-" (pretty m)) in E.
    injection E as -> E. symmetry in E. by apply no_dash_in_level in E.
  - change (String c (a +:+ "-" +:+ pretty n)
            = String c' (b +:+ "-" +:+ pretty m)) in E.
    injection E as -> E. destruct (IH _ E) as [-> ->]. done.
Qed.

(** Among the flows of one item, the identifier of the application tells
    the advancement and the level apart: two flows with the same identifier
    are for the same advancement at the same level. *)
Theorem flow_id_determines_step (f1 f2 : Flow) (s : string) :
  item_id (item f1) = item_id (item f2) ->
  id f1 = Return s ->
  id f2 = Return s ->
  advancement f1 = advancement f2 /\ level f1 = level f2.
Proof.
  unfold id. intros Hitem.
  destruct (advancement f1) as [adv1|]; [|done].
  destruct (advancement f2) as [adv2|]; [|done].
  intros [= <-] [= E]. rewrite Hitem in E.
  do 3 apply (inj (String.app _)) in E.
  destruct (suffix_level_inj _ _ _ _ E) as [-> ->]. done.
Qed.

End FlowId.

Section FlowIdExamples.
Import AdvancementFlow AdvancementFlowId.

Example flow_id_sample : id reentered_flow = Return "actor-cls1-advancement-adv1-3".
Proof. reflexivity. Qed.

Lemma flow_id_determines_step_witness :
  advancement reentered_flow = advancement (constructor sample_item "adv1" 3)
  /\ level reentered_flow = level (constructor sample_item "adv1" 3).
Proof.
  apply (flow_id_determines_step reentered_flow (constructor sample_item "adv1" 3)
           "actor-cls1-advancement-adv1-3"); reflexivity.
Defined.

End FlowIdExamples.

(** ** The system module: validation strictness *)

Section ValidationStrictness.
Import System.

(** Configuring the strictness settles the setting: a second run changes
    nothing and asks for no reload.  Only the setting is written; a reload
    is asked for exactly when the setting was switched off, which happens
    exactly for a GM whose world is strict and holds an invalid document. *)
Theorem configureValidationStrictness_settles (game : Game) :
  let after := (_configureValidationStrictness game).1 in
  let signals := (_configureValidationStrictness game).2 in
  _configureValidationStrictness after = (after, [])
  /\ (isGM after, invalidActors after, invalidItems after, invalidScenes after)
     = (isGM game, invalidActors game, invalidItems game, invalidScenes game)
  /\ (signals = [SocketReload; DebouncedReload] \/ signals = [])
  /\ (signals <> [] <-> strictValidation after <> strictValidation game)
  /\ (strictValidation after <> strictValidation game
      <-> isGM game = true /\ strictValidation game = true
          /\ (0 < invalidActors game + invalidItems game + invalidScenes game)%nat).
Proof.
  cbv zeta. unfold _configureValidationStrictness.
  destruct game as [gm a i s strict].
  cbn [isGM invalidActors invalidItems invalidScenes strictValidation].
  destruct gm;
    (destruct (a + i + s =? 0)%nat eqn:E;
     [apply Nat.eqb_eq in E as E'|apply Nat.eqb_neq in E as E']);
    destruct strict;
    cbn [negb andb fst snd isGM invalidActors invalidItems invalidScenes
         strictValidation];
    rewrite ?E; cbn [negb andb];
    intuition (try congruence; try lia).
Qed.

End ValidationStrictness.

(** ** ItemChoiceAdvancement: the restriction on features *)

Section FeatureRestriction.
Import JS ItemChoiceAdvancement.

Variable config : CONFIG.
Variable super_validateItemType : Item5e -> bool -> Outcome bool.

(** An item that passes the validation for features with a restricted
    feature type is a feature of exactly that type; when the table of
    feature types names the restricted subtype, the item has that subtype
    as well.  The feature type of the restriction has a label that is not
    blank (a blank label raises no objection). *)
Theorem feature_restriction_enforced this item opts r :
  nullish_or (o_type opts) (cfg_type (configuration this)) = Some "feat" ->
  nullish_or (o_restriction opts) (restriction (configuration this)) = Some r ->
  truthy (r_type r) = true ->
  (forall typeConfig, featureTypes config !! to_key (r_type r) = Some typeConfig ->
                      label typeConfig <> "") ->
  _validateItemType config super_validateItemType this item opts = Return true ->
  item_type item = "feat"
  /\ exists typeConfig ft,
       featureTypes config !! to_key (r_type r) = Some typeConfig
       /\ sys_type (system item) = Some ft
       /\ r_type r = Some (ft_value ft)
       /\ (truthy (subtypes typeConfig ≫= (fun m => m !! to_key (r_subtype r))) = true ->
           r_subtype r = Some (ft_subtype ft)).
Proof.
  intros Ht Hr Hrt Hlabel. unfold _validateItemType. rewrite Ht, Hr.
  destruct (super_validateItemType _ _) as [b|e]; [|done]. cbn [obind truthy].
  rewrite (bool_decide_eq_false_2 ("feat" = "")) by done. cbn [negb andb].
  case_bool_decide as Hty; cbn [negb];
    [|intros H; by apply reject_not_true in H].
  injection Hty as Hty. symmetry in Hty.
  rewrite bool_decide_eq_true_2 by done. rewrite Hrt.
  cbn [andb]. unfold feature_errorLabel.
  destruct (featureTypes config !! to_key (r_type r)) as [typeConfig|] eqn:Hc;
    [|done].
  destruct (sys_type (system item)) as [ft|]; [|done].
  case_bool_decide as Hv; cbn [negb].
  - destruct (truthy (subtypes typeConfig ≫= _)) eqn:Hsub; cbn [andb].
    + case_bool_decide as Hs; cbn [negb obind].
      * intros _. split; [done|]. exists typeConfig, ft.
        split; [done|split; [done|split; [done|]]]. intros Hsub'. congruence.
      * rewrite Hsub. intros H. by apply reject_not_true in H.
    + intros _. split; [done|]. exists typeConfig, ft.
        split; [done|split; [done|split; [done|]]]. intros Hsub'. congruence.
  - cbn [obind truthy].
    rewrite (bool_decide_eq_false_2 (label typeConfig = "")) by (by apply Hlabel).
    cbn [negb]. intros H. by apply reject_not_true in H.
Qed.

(** Without [strict] the validation answers with a boolean: once the
    inherited check has returned, no validation message is thrown, and the
    only failure left is a TypeError for a property read on a missing value
    (no restriction object, an unknown feature type, an item without a
    feature type). *)
Theorem non_strict_validation_answers this item opts b :
  o_strict opts = Some false ->
  super_validateItemType item false = Return b ->
  (exists answer,
     _validateItemType config super_validateItemType this item opts = Return answer)
  \/ (exists what,
        _validateItemType config super_validateItemType this item opts
        = Throw (TypeError what)).
Proof.
  intros Hs Hsuper. unfold _validateItemType, power_level_check, feature_errorLabel.
  rewrite Hs. change (default true (Some false)) with false.
  rewrite Hsuper. cbn [obind].
  repeat (case_match; cbn [obind reject]; eauto).
Qed.

End FeatureRestriction.

Section FeatureRestrictionExamples.
Import JS ItemChoiceAdvancement.

Lemma feature_restriction_enforced_witness :
  item_type (feat_item "class" "channelDivinity") = "feat"
  /\ exists typeConfig ft,
       featureTypes sample_config !! to_key (Some "class") = Some typeConfig
       /\ sys_type (system (feat_item "class" "channelDivinity")) = Some ft
       /\ Some "class" = Some (ft_value ft)
       /\ (truthy (subtypes typeConfig
                   ≫= (fun m => m !! to_key (Some "channelDivinity"))) = true ->
           Some "channelDivinity" = Some (ft_subtype ft)).
Proof.
  apply (feature_restriction_enforced sample_config sample_super
           sample_choice_advancement (feat_item "class" "channelDivinity")
           class_feature_only
           {| r_type := Some "class"; r_subtype := Some "channelDivinity";
              r_level := None |}).
  - reflexivity.
  - reflexivity.
  - reflexivity.
  - intros typeConfig H. vm_compute in H. injection H as <-. discriminate.
  - vm_compute. reflexivity.
Defined.

Example feature_of_another_subtype_refused :
  _validateItemType sample_config sample_super sample_choice_advancement
    (feat_item "class" "maneuver") class_feature_only
  = Throw (Error {| msg_key := "SW5E.AdvancementItemChoiceTypeWarning";
                    msg_data := [("type", Plain (Some "SW5E.ClassFeature.ChannelDivinity"))] |}).
Proof. vm_compute. reflexivity. Qed.

Lemma non_strict_validation_answers_witness :
  (exists answer,
     _validateItemType sample_config sample_super sample_choice_advancement
       class_item non_strict = Return answer)
  \/ (exists what,
        _validateItemType sample_config sample_super sample_choice_advancement
          class_item non_strict = Throw (TypeError what)).
Proof.
  apply (non_strict_validation_answers sample_config sample_super
           sample_choice_advancement class_item non_strict false); reflexivity.
Defined.

Example non_strict_mismatch_returns_false :
  _validateItemType sample_config sample_super sample_choice_advancement
    class_item non_strict = Return false.
Proof. reflexivity. Qed.

End FeatureRestrictionExamples.

Section LevelDownExamples.
Import ActorSheet5eCharacter.

Lemma level_down_keeping_advancements_witness :
  _onLevelChange false one_step_per_level (Resolve false) level_down_by_two
    sample_world
  = (Return Updated,
     {| actor := {| items := <[0%nat := set_levels (levels guardian + -2) guardian]>
                               (items (actor sample_world));
                    advancements := advancements (actor sample_world) |};
        log := log sample_world
               ++ [PreventDefault; ConfirmLevelDown "c1";
                   DocumentUpdate (id guardian) (levels guardian + -2)] |}).
Proof.
  apply (level_down_keeping_advancements one_step_per_level level_down_by_two
           (-2) "c1" sample_world 0 guardian);
    try reflexivity; try discriminate.
Defined.

End LevelDownExamples.
